(** * kvz_rtp::media_stream: the session orchestrator of uvgRTP

    A shallow embedding of [src/media_stream.cc].  The orchestrator owns a
    socket, an RTP context, an optional SRTP context, a sender and a
    receiver.  Those classes live in other translation units: every call
    into them is recorded in a log, and the value it returns is supplied
    by a record of collaborator answers.  Raw pointers are modelled with
    an explicit heap of live objects, so that a dereference of a pointer
    that was never assigned, or a second release, shows up as a fault.
    A [new] expression whose allocation fails leaves the function with
    [std::bad_alloc]. *)

From Stdlib Require Import ZArith Lia.
From stdpp Require Import base decidable list sets strings.

Local Open Scope Z_scope.

(** ** Values *)

(** The enumerators of [rtp_error_t] that [media_stream.cc] names, and
    [RTP_ERROR n] for any other enumerator a collaborator may hand back. *)
Inductive rtp_error_t :=
| RTP_OK
| RTP_GENERIC_ERROR
| RTP_BIND_ERROR
| RTP_INVALID_VALUE
| RTP_MEMORY_ERROR
| RTP_ERROR (n : Z).

Global Instance rtp_error_t_eq_dec : EqDecision rtp_error_t.
Proof. solve_decision. Defined.

Definition rtp_format_t := Z.

Definition addr := Z.

(** A raw object pointer: null, pointing at the object allocated at some
    address, or holding the indeterminate value of a member that no
    constructor has written. *)
Inductive ptr :=
| nullptr
| indeterminate
| obj (a : addr).

Global Instance ptr_eq_dec : EqDecision ptr.
Proof. solve_decision. Defined.

(** A function pointer: [None] is the null pointer. *)
Definition fnptr := option Z.

(** What [socket::create_sockaddr(AF_INET, host, port)] is asked to describe. *)
Record sockaddr_in := Sockaddr { sin_addr : string; sin_port : Z }.

Global Instance sockaddr_in_eq_dec : EqDecision sockaddr_in.
Proof. solve_decision. Defined.

Definition create_sockaddr (host : string) (port : Z) : sockaddr_in :=
  Sockaddr host port.

(** [rtp_ctx_conf_t]: the flag bitmask and the table [ctx_values]. *)
Record rtp_ctx_conf_t := CtxConf { flags : Z; ctx_values : list Z }.

Global Instance rtp_ctx_conf_t_eq_dec : EqDecision rtp_ctx_conf_t.
Proof. solve_decision. Defined.

(** The data members of [media_stream]. *)
Record media_stream := MediaStream {
  key_ : Z;
  srtp_ : ptr;
  sender_ : ptr;
  receiver_ : ptr;
  rtp_ : ptr;
  addr_out_ : option sockaddr_in;
  addr_ : string;
  laddr_ : string;
  src_port_ : Z;
  dst_port_ : Z;
  fmt_ : rtp_format_t;
  flags_ : Z;
  ctx_config_ : rtp_ctx_conf_t;
  media_config_ : ptr
}.

Definition set_srtp_ (p : ptr) (t : media_stream) : media_stream :=
  MediaStream (key_ t) p (sender_ t) (receiver_ t) (rtp_ t) (addr_out_ t)
    (addr_ t) (laddr_ t) (src_port_ t) (dst_port_ t) (fmt_ t) (flags_ t)
    (ctx_config_ t) (media_config_ t).

Definition set_sender_ (p : ptr) (t : media_stream) : media_stream :=
  MediaStream (key_ t) (srtp_ t) p (receiver_ t) (rtp_ t) (addr_out_ t)
    (addr_ t) (laddr_ t) (src_port_ t) (dst_port_ t) (fmt_ t) (flags_ t)
    (ctx_config_ t) (media_config_ t).

Definition set_receiver_ (p : ptr) (t : media_stream) : media_stream :=
  MediaStream (key_ t) (srtp_ t) (sender_ t) p (rtp_ t) (addr_out_ t)
    (addr_ t) (laddr_ t) (src_port_ t) (dst_port_ t) (fmt_ t) (flags_ t)
    (ctx_config_ t) (media_config_ t).

Definition set_rtp_ (p : ptr) (t : media_stream) : media_stream :=
  MediaStream (key_ t) (srtp_ t) (sender_ t) (receiver_ t) p (addr_out_ t)
    (addr_ t) (laddr_ t) (src_port_ t) (dst_port_ t) (fmt_ t) (flags_ t)
    (ctx_config_ t) (media_config_ t).

Definition set_addr_out_ (a : sockaddr_in) (t : media_stream) : media_stream :=
  MediaStream (key_ t) (srtp_ t) (sender_ t) (receiver_ t) (rtp_ t) (Some a)
    (addr_ t) (laddr_ t) (src_port_ t) (dst_port_ t) (fmt_ t) (flags_ t)
    (ctx_config_ t) (media_config_ t).

Definition set_laddr_ (l : string) (t : media_stream) : media_stream :=
  MediaStream (key_ t) (srtp_ t) (sender_ t) (receiver_ t) (rtp_ t) (addr_out_ t)
    (addr_ t) l (src_port_ t) (dst_port_ t) (fmt_ t) (flags_ t)
    (ctx_config_ t) (media_config_ t).

Definition set_ctx_config_ (c : rtp_ctx_conf_t) (t : media_stream) : media_stream :=
  MediaStream (key_ t) (srtp_ t) (sender_ t) (receiver_ t) (rtp_ t) (addr_out_ t)
    (addr_ t) (laddr_ t) (src_port_ t) (dst_port_ t) (fmt_ t) (flags_ t)
    c (media_config_ t).

Definition set_media_config_ (p : ptr) (t : media_stream) : media_stream :=
  MediaStream (key_ t) (srtp_ t) (sender_ t) (receiver_ t) (rtp_ t) (addr_out_ t)
    (addr_ t) (laddr_ t) (src_port_ t) (dst_port_ t) (fmt_ t) (flags_ t)
    (ctx_config_ t) p.

(** ** Calls that leave the translation unit *)

Inductive event :=
| socket_init (r : rtp_error_t)
| ioctlsocket_nonblock (raw : Z)
| sys_bind (raw : Z) (a : sockaddr_in) (rc : Z)
| socket_bind_any (port : Z) (r : rtp_error_t)
| socket_set_sockaddr (a : sockaddr_in)
| socket_set_srtp (s : ptr)
| new_rtp (fmt : rtp_format_t) (p : ptr)
| new_srtp (p : ptr)
| new_sender (p : ptr) (conf : rtp_ctx_conf_t) (fmt : rtp_format_t) (rtp : ptr)
| new_receiver (p : ptr) (conf : rtp_ctx_conf_t) (fmt : rtp_format_t) (rtp : ptr)
| zrtp_init (z : addr) (ssrc : Z) (raw : Z) (dest : option sockaddr_in) (r : rtp_error_t)
| srtp_init_zrtp (s : addr) (rtp : ptr) (z : ptr) (r : rtp_error_t)
| sender_init (s : addr)
| receiver_start (r : addr)
| sender_destroy (s : addr)
| receiver_stop (r : addr)
| delete_obj (a : addr)
| sender_push_frame (s : addr) (data : Z) (data_len : Z) (fl : Z) (owned : bool) (r : rtp_error_t)
| receiver_pull_frame (r : addr) (frame : ptr)
| receiver_install_recv_hook (r : addr) (arg : Z) (hook : fnptr)
| sender_install_dealloc_hook (s : addr) (hook : fnptr)
| win_get_last_error.

Global Instance event_eq_dec : EqDecision event.
Proof. solve_decision. Defined.

(** The answers of the collaborators during one bootstrap. *)
Record collaborators := Collaborators {
  socket_init_result : rtp_error_t;
  raw_socket : Z;
  sys_bind_result : Z;
  socket_bind_result : rtp_error_t;
  alloc_rtp : bool;
  alloc_srtp : bool;
  alloc_sender : bool;
  alloc_receiver : bool;
  rtp_ssrc : Z;
  zrtp_init_result : rtp_error_t;
  srtp_init_zrtp_result : rtp_error_t
}.

(** Constants of headers that are not part of this file, and the two
    platform switches of [init_connection]: whether [_WIN32] and whether
    [__linux__] is defined. *)
Record build := Build {
  RCE_LAST : Z;
  RCC_LAST : Z;
  win32 : bool;
  linux : bool
}.

(** ** The machine: [*this], the heap and the log *)

Record machine := Machine {
  self : media_stream;
  live : list addr;
  fresh : addr;
  log : list event
}.

(** How a call ends: it returns a value, it is left by the exception
    [std::bad_alloc] (the only one this file can raise), or it has
    undefined behaviour. *)
Inductive outcome (A : Type) :=
| Ret (a : A)
| Bad_alloc
| Fault.
Arguments Ret {A} a.
Arguments Bad_alloc {A}.
Arguments Fault {A}.

Definition M (A : Type) : Type := machine → machine * outcome A.

Definition pure {A} (a : A) : M A := λ m, (m, Ret a).

Definition bind {A B} (x : M A) (f : A → M B) : M B :=
  λ m, match x m with
       | (m', Ret a) => f a m'
       | (m', Bad_alloc) => (m', Bad_alloc)
       | (m', Fault) => (m', Fault)
       end.

Notation "'let*' x ':=' c 'in' k" := (bind c (λ x, k))
  (at level 10, x name, c at level 100, k at level 200).
Notation "c ';;' k" := (bind c (λ _, k))
  (at level 100, k at level 200, right associativity).

Definition fault {A} : M A := λ m, (m, Fault).

Definition this : M media_stream := λ m, (m, Ret (self m)).

Definition modify (f : media_stream → media_stream) : M unit :=
  λ m, (Machine (f (self m)) (live m) (fresh m) (log m), Ret tt).

Definition emit (e : event) : M unit :=
  λ m, (Machine (self m) (live m) (fresh m) (log m ++ [e]), Ret tt).

Definition is_live (a : addr) (m : machine) : bool := bool_decide (a ∈ live m).

(** [p->...]: the pointer has to point at a live object. *)
Definition deref (p : ptr) : M addr :=
  λ m, match p with
       | obj a => if is_live a m then (m, Ret a) else (m, Fault)
       | _ => (m, Fault)
       end.

(** [new T(...)], a plain new-expression: a fresh object, or, when the
    allocation fails, [std::bad_alloc], thrown before the constructor runs
    and before anything is assigned. *)
Definition new (ok : bool) : M ptr :=
  λ m, if ok
       then (Machine (self m) (fresh m :: live m) (fresh m + 1) (log m),
             Ret (obj (fresh m)))
       else (m, Bad_alloc).

Definition release (a : addr) (l : list addr) : list addr :=
  filter (λ x, x ≠ a) l.

(** [delete p]: nothing for null, one release for a live object. *)
Definition delete (p : ptr) : M unit :=
  λ m, match p with
       | nullptr => (m, Ret tt)
       | indeterminate => (m, Fault)
       | obj a =>
           if is_live a m
           then (Machine (self m) (release a (live m)) (fresh m)
                   (log m ++ [delete_obj a]), Ret tt)
           else (m, Fault)
       end.

Global Arguments release : simpl never.

Definition result {A} (x : machine * outcome A) : outcome A := snd x.
Definition after {A} (x : machine * outcome A) : machine := fst x.

Definition get {A} (field : media_stream → A) : M A :=
  let* t := this in pure (field t).

(** ** The member functions of [media_stream] *)

Definition uint32 (z : Z) : Z := z mod 2 ^ 32.

Section MediaStream.

Variable B : build.

(** [media_stream(addr, src_port, dst_port, fmt, flags)].  [generate_32]
    is the value [kvz_rtp::random::generate_32()] hands back.  The
    initialiser list sets [srtp_] and [media_config_] to null and
    value-initialises [ctx_config_]; [sender_], [receiver_], [rtp_] and
    [addr_out_] are not written. *)
Definition media_stream_ctor (generate_32 : Z) (addr : string)
    (src_port dst_port : Z) (fmt : rtp_format_t) (flags : Z) : media_stream :=
  {| key_ := uint32 generate_32;
     srtp_ := nullptr;
     sender_ := indeterminate;
     receiver_ := indeterminate;
     rtp_ := indeterminate;
     addr_out_ := None;
     addr_ := addr;
     laddr_ := "";
     src_port_ := src_port;
     dst_port_ := dst_port;
     fmt_ := fmt;
     flags_ := flags;
     ctx_config_ := CtxConf flags (replicate (Z.to_nat (RCC_LAST B)) 0);
     media_config_ := nullptr |}.

(** [media_stream(remote_addr, local_addr, src_port, dst_port, fmt, flags)]. *)
Definition media_stream_ctor_local (generate_32 : Z) (remote_addr local_addr : string)
    (src_port dst_port : Z) (fmt : rtp_format_t) (flags : Z) : media_stream :=
  set_laddr_ local_addr
    (media_stream_ctor generate_32 remote_addr src_port dst_port fmt flags).

(** [~media_stream()]. *)
Definition destructor : M unit :=
  let* p := get sender_ in
  let* s := deref p in
  emit (sender_destroy s);;
  let* p := get receiver_ in
  let* r := deref p in
  emit (receiver_stop r);;
  let* p := get sender_ in
  delete p;;
  let* p := get receiver_ in
  delete p;;
  let* p := get rtp_ in
  delete p;;
  let* p := get srtp_ in
  delete p.

(** The tail of [init_connection], reached from both branches of the
    bind step. *)
Definition set_destination (ret : rtp_error_t) : M rtp_error_t :=
  let* a := get addr_ in
  let* port := get dst_port_ in
  modify (set_addr_out_ (create_sockaddr a port));;
  emit (socket_set_sockaddr (create_sockaddr a port));;
  pure ret.

Definition init_connection (c : collaborators) : M rtp_error_t :=
  emit (socket_init (socket_init_result c));;
  let ret := socket_init_result c in
  if decide (ret ≠ RTP_OK) then pure ret else
  (if win32 B then emit (ioctlsocket_nonblock (raw_socket c)) else pure tt);;
  let* laddr := get laddr_ in
  let* src_port := get src_port_ in
  if decide (laddr ≠ "") then
    let bind_addr := create_sockaddr laddr src_port in
    emit (sys_bind (raw_socket c) bind_addr (sys_bind_result c));;
    if decide (sys_bind_result c = -1) then
      (if linux B then pure tt else emit win_get_last_error);;
      pure RTP_BIND_ERROR
    else set_destination ret
  else
    emit (socket_bind_any src_port (socket_bind_result c));;
    let ret := socket_bind_result c in
    if decide (ret ≠ RTP_OK) then pure ret
    else set_destination ret.

(** The construction and start of sender and receiver, written twice in
    the source, at the end of both forms of [init]. *)
Definition start_sender_receiver (c : collaborators) : M unit :=
  let* conf := get ctx_config_ in
  let* fmt := get fmt_ in
  let* rtp := get rtp_ in
  let* s := new (alloc_sender c) in
  emit (new_sender s conf fmt rtp);;
  modify (set_sender_ s);;
  let* r := new (alloc_receiver c) in
  emit (new_receiver r conf fmt rtp);;
  modify (set_receiver_ r);;
  let* p := get sender_ in
  let* s := deref p in
  emit (sender_init s);;
  let* p := get receiver_ in
  let* r := deref p in
  emit (receiver_start r).

(** [init()]. *)
Definition init (c : collaborators) : M rtp_error_t :=
  let* r := init_connection c in
  if decide (r ≠ RTP_OK) then pure RTP_GENERIC_ERROR else
  let* fmt := get fmt_ in
  let* p := new (alloc_rtp c) in
  emit (new_rtp fmt p);;
  modify (set_rtp_ p);;
  start_sender_receiver c;;
  pure RTP_OK.

(** [init(kvz_rtp::zrtp *zrtp)]. *)
Definition init_zrtp (zrtp : ptr) (c : collaborators) : M rtp_error_t :=
  let* r := init_connection c in
  if decide (r ≠ RTP_OK) then pure RTP_GENERIC_ERROR else
  let ret := RTP_OK in
  let* fmt := get fmt_ in
  let* p := new (alloc_rtp c) in
  emit (new_rtp fmt p);;
  modify (set_rtp_ p);;
  if decide (p = nullptr) then pure RTP_MEMORY_ERROR else
  let* z := deref zrtp in
  let* rtp := get rtp_ in
  deref rtp;;
  let* dest := get addr_out_ in
  emit (zrtp_init z (rtp_ssrc c) (raw_socket c) dest (zrtp_init_result c));;
  let ret := zrtp_init_result c in
  if decide (ret ≠ RTP_OK) then pure ret else
  let* s := new (alloc_srtp c) in
  emit (new_srtp s);;
  modify (set_srtp_ s);;
  if decide (s = nullptr) then pure RTP_MEMORY_ERROR else
  let* sa := deref s in
  let* rtp := get rtp_ in
  emit (srtp_init_zrtp sa rtp zrtp (srtp_init_zrtp_result c));;
  let ret := srtp_init_zrtp_result c in
  if decide (ret ≠ RTP_OK) then pure ret else
  let* srtp := get srtp_ in
  emit (socket_set_srtp srtp);;
  start_sender_receiver c;;
  pure ret.

(** [push_frame(uint8_t *data, size_t data_len, int flags)]; [answer] is
    what the sender returns. *)
Definition push_frame (data data_len fl : Z) (answer : rtp_error_t) : M rtp_error_t :=
  let* p := get sender_ in
  let* s := deref p in
  emit (sender_push_frame s data data_len fl false answer);;
  pure answer.

(** [push_frame(std::unique_ptr<uint8_t[]> data, size_t data_len, int flags)]. *)
Definition push_frame_unique (data data_len fl : Z) (answer : rtp_error_t) : M rtp_error_t :=
  let* p := get sender_ in
  let* s := deref p in
  emit (sender_push_frame s data data_len fl true answer);;
  pure answer.

(** [pull_frame()]; [answer] is the frame pointer the receiver returns. *)
Definition pull_frame (answer : ptr) : M ptr :=
  let* p := get receiver_ in
  let* r := deref p in
  emit (receiver_pull_frame r answer);;
  pure answer.

Definition install_receive_hook (arg : Z) (hook : fnptr) : M rtp_error_t :=
  if decide (hook = None) then pure RTP_INVALID_VALUE else
  let* p := get receiver_ in
  let* r := deref p in
  emit (receiver_install_recv_hook r arg hook);;
  pure RTP_OK.

Definition install_deallocation_hook (hook : fnptr) : M rtp_error_t :=
  if decide (hook = None) then pure RTP_INVALID_VALUE else
  let* p := get sender_ in
  let* s := deref p in
  emit (sender_install_dealloc_hook s hook);;
  pure RTP_OK.

Definition set_media_config (config : ptr) : M unit :=
  modify (set_media_config_ config).

Definition get_media_config : M ptr := get media_config_.

(** [configure_ctx(int flag, ssize_t value)]. *)
Definition configure_ctx_value (flag value : Z) : M rtp_error_t :=
  if decide (flag < 0 ∨ flag >= RCC_LAST B ∨ value < 0) then pure RTP_INVALID_VALUE else
  modify (λ t, set_ctx_config_
     (CtxConf (flags (ctx_config_ t))
              (<[Z.to_nat flag := value]> (ctx_values (ctx_config_ t)))) t);;
  pure RTP_OK.

(** [configure_ctx(int flag)]. *)
Definition configure_ctx (flag : Z) : M rtp_error_t :=
  if decide (flag < 0 ∨ flag >= RCE_LAST B) then pure RTP_INVALID_VALUE else
  modify (λ t, set_ctx_config_
     (CtxConf (Z.lor (flags (ctx_config_ t)) flag)
              (ctx_values (ctx_config_ t))) t);;
  pure RTP_OK.

Definition get_key : M Z := get key_.

End MediaStream.

(** ** Clients: sequences of calls on one orchestrator *)

Inductive call :=
| call_init (c : collaborators)
| call_init_zrtp (zrtp : ptr) (c : collaborators)
| call_push_frame (data data_len fl : Z) (answer : rtp_error_t)
| call_push_frame_unique (data data_len fl : Z) (answer : rtp_error_t)
| call_pull_frame (answer : ptr)
| call_install_receive_hook (arg : Z) (hook : fnptr)
| call_install_deallocation_hook (hook : fnptr)
| call_set_media_config (config : ptr)
| call_get_media_config
| call_configure_ctx_value (flag value : Z)
| call_configure_ctx (flag : Z)
| call_get_key.

(** A call made by a client: the value it returns is dropped, and a
    [std::bad_alloc] that leaves it is caught by the client, which goes
    on. *)
Definition discard {A} (x : M A) : M unit :=
  λ m, match x m with
       | (m', Ret _) => (m', Ret tt)
       | (m', Bad_alloc) => (m', Ret tt)
       | (m', Fault) => (m', Fault)
       end.

Definition perform (B : build) (k : call) : M unit :=
  match k with
  | call_init c => discard (init B c)
  | call_init_zrtp zrtp c => discard (init_zrtp B zrtp c)
  | call_push_frame d n f r => discard (push_frame d n f r)
  | call_push_frame_unique d n f r => discard (push_frame_unique d n f r)
  | call_pull_frame r => discard (pull_frame r)
  | call_install_receive_hook arg hook => discard (install_receive_hook arg hook)
  | call_install_deallocation_hook hook => discard (install_deallocation_hook hook)
  | call_set_media_config p => set_media_config p
  | call_get_media_config => discard get_media_config
  | call_configure_ctx_value flag value => discard (configure_ctx_value B flag value)
  | call_configure_ctx flag => discard (configure_ctx B flag)
  | call_get_key => discard get_key
  end.

(** The calls are made in order; undefined behaviour ends the run where
    it occurs. *)
Fixpoint perform_all (B : build) (ks : list call) : M unit :=
  match ks with
  | [] => pure tt
  | k :: ks => perform B k;; perform_all B ks
  end.

(** ** Vocabulary of the statements *)

(** Construction or start of the sender or the receiver. *)
Definition sender_receiver_event (e : event) : bool :=
  match e with
  | new_sender _ _ _ _ | new_receiver _ _ _ _
  | sender_init _ | receiver_start _ => true
  | _ => false
  end.

(** An attempt to bind the socket. *)
Definition bind_event (e : event) : bool :=
  match e with
  | sys_bind _ _ _ | socket_bind_any _ _ => true
  | _ => false
  end.

(** Calls on the socket made during connection establishment. *)
Definition transport_event (e : event) : bool :=
  match e with
  | socket_init _ | ioctlsocket_nonblock _ | sys_bind _ _ _
  | socket_bind_any _ _ | socket_set_sockaddr _ => true
  | _ => false
  end.

(** Every call that connection establishment can make: those on the
    socket and the error report of the second platform switch. *)
Definition connection_event (e : event) : bool :=
  match e with
  | win_get_last_error => true
  | _ => transport_event e
  end.

(** The values of an [int]. *)
Definition int_range (z : Z) : Prop := - 2 ^ 31 <= z < 2 ^ 31.

(** A machine whose allocator never hands out an address twice. *)
Definition heap_ok (m : machine) : Prop := ∀ a, a ∈ live m → a < fresh m.

(** A pointer that can be dereferenced. *)
Definition valid (m : machine) (p : ptr) : Prop :=
  ∃ a, p = obj a ∧ a ∈ live m.

(** A computation that leaves a data member as it found it, whatever
    its outcome. *)
Definition keeps {A F} (field : media_stream → F) (x : M A) : Prop :=
  ∀ m, field (self (after (x m))) = field (self m).

(** The release that [delete p] performs. *)
Definition release_of (p : ptr) : list event :=
  match p with
  | obj a => [delete_obj a]
  | _ => []
  end.

(** A freshly constructed orchestrator in a world with heap [l]. *)
Definition boot (t : media_stream) (l : list addr) (n : addr) : machine :=
  Machine t l n [].

(** What the [_WIN32] block of [init_connection] contributes to the log. *)
Definition nonblocking_setup (B : build) (c : collaborators) : list event :=
  if win32 B then [ioctlsocket_nonblock (raw_socket c)] else [].

(** What the [__linux__] switch contributes after a failed [::bind]: a
    build without [__linux__] calls [win_get_last_error()]. *)
Definition bind_failure_report (B : build) : list event :=
  if linux B then [] else [win_get_last_error].

(** What follows a failing step of connection establishment in the log:
    the error report, when the step is [::bind]. *)
Definition report_after (B : build) (last : event) : list event :=
  match last with
  | sys_bind _ _ _ => bind_failure_report B
  | _ => []
  end.

(** The step of connection establishment that reports a failure. *)
Definition failed_step (e : event) : bool :=
  match e with
  | socket_init r => bool_decide (r ≠ RTP_OK)
  | sys_bind _ _ rc => bool_decide (rc = -1)
  | socket_bind_any _ r => bool_decide (r ≠ RTP_OK)
  | _ => false
  end.

(** The members after [init_connection] returned [r]: [addr_out_] is
    assigned on the successful path only. *)
Definition connected (r : rtp_error_t) (t : media_stream) : media_stream :=
  if decide (r = RTP_OK)
  then set_addr_out_ (create_sockaddr (addr_ t) (dst_port_ t)) t
  else t.

(** A call that comes back with a value. *)
Definition returns {A} (x : M A) (m : machine) : Prop :=
  ∃ a, result (x m) = Ret a.

(** ** A concrete build and concrete runs *)

(** One admissible choice of the two constants, on Linux, and the same on
    Windows. *)
Definition sample_build : build := Build 256 4 false true.

Definition windows_build : build := Build 256 4 true false.

Definition answers_ok : collaborators :=
  {| socket_init_result := RTP_OK; raw_socket := 3;
     sys_bind_result := 0; socket_bind_result := RTP_OK;
     alloc_rtp := true; alloc_srtp := true;
     alloc_sender := true; alloc_receiver := true;
     rtp_ssrc := 2864434397;
     zrtp_init_result := RTP_OK; srtp_init_zrtp_result := RTP_OK |}.

(** [::bind] answers -1. *)
Definition answers_bind_fails : collaborators :=
  {| socket_init_result := RTP_OK; raw_socket := 3;
     sys_bind_result := -1; socket_bind_result := RTP_OK;
     alloc_rtp := true; alloc_srtp := true;
     alloc_sender := true; alloc_receiver := true;
     rtp_ssrc := 2864434397;
     zrtp_init_result := RTP_OK; srtp_init_zrtp_result := RTP_OK |}.

(** The ZRTP handshake answers with an error of its own. *)
Definition answers_handshake_fails : collaborators :=
  {| socket_init_result := RTP_OK; raw_socket := 3;
     sys_bind_result := 0; socket_bind_result := RTP_OK;
     alloc_rtp := true; alloc_srtp := true;
     alloc_sender := true; alloc_receiver := true;
     rtp_ssrc := 2864434397;
     zrtp_init_result := RTP_ERROR 7; srtp_init_zrtp_result := RTP_OK |}.

(** An orchestrator without and one with a local address, each in a world
    whose only live object, at address 0, is the caller's ZRTP context. *)
Definition plain_machine : machine :=
  boot (media_stream_ctor sample_build 81985529216486895 "203.0.113.5"
          5004 5004 96 0) [0] 1.

Definition bound_machine : machine :=
  boot (media_stream_ctor_local sample_build 81985529216486895 "203.0.113.5"
          "192.0.2.10" 5004 5004 96 0) [0] 1.

(** ** Vocabulary of the further properties *)

(** A view of the members that no bootstrap writes: it does not depend on
    [rtp_], [srtp_], [sender_], [receiver_] or [addr_out_]. *)
Definition bootstrap_blind {F} (field : media_stream → F) : Prop :=
  ∀ t, (∀ p, field (set_rtp_ p t) = field t)
     ∧ (∀ p, field (set_srtp_ p t) = field t)
     ∧ (∀ p, field (set_sender_ p t) = field t)
     ∧ (∀ p, field (set_receiver_ p t) = field t)
     ∧ (∀ a, field (set_addr_out_ a t) = field t).

(** The calls that assign [ctx_config_], and the one that assigns
    [media_config_]. *)
Definition writes_config (k : call) : bool :=
  match k with
  | call_configure_ctx_value _ _ | call_configure_ctx _ => true
  | _ => false
  end.

Definition writes_media_config (k : call) : bool :=
  match k with
  | call_set_media_config _ => true
  | _ => false
  end.

(** What the constructors store of their arguments, besides the
    configuration. *)
Definition endpoint (t : media_stream) : string * string * Z * Z * rtp_format_t * Z :=
  (addr_ t, laddr_ t, src_port_ t, dst_port_ t, fmt_ t, flags_ t).

(** The [_WIN32]-only call. *)
Definition ioctl_event (e : event) : bool :=
  match e with
  | ioctlsocket_nonblock _ => true
  | _ => false
  end.

(** The calls that only some platforms make. *)
Definition platform_event (e : event) : bool :=
  match e with
  | ioctlsocket_nonblock _ | win_get_last_error => true
  | _ => false
  end.

(** The start of the sender or the receiver. *)
Definition start_event (e : event) : bool :=
  match e with
  | sender_init _ | receiver_start _ => true
  | _ => false
  end.

(** The steps that only the secure bootstrap takes. *)
Definition secure_event (e : event) : bool :=
  match e with
  | zrtp_init _ _ _ _ _ | new_srtp _ | srtp_init_zrtp _ _ _ _
  | socket_set_srtp _ => true
  | _ => false
  end.

(** ** Further concrete answers *)

(** The SRTP context refuses the keys. *)
Definition answers_srtp_fails : collaborators :=
  {| socket_init_result := RTP_OK; raw_socket := 3;
     sys_bind_result := 0; socket_bind_result := RTP_OK;
     alloc_rtp := true; alloc_srtp := true;
     alloc_sender := true; alloc_receiver := true;
     rtp_ssrc := 2864434397;
     zrtp_init_result := RTP_OK; srtp_init_zrtp_result := RTP_ERROR 9 |}.

(** No memory for the RTP context, respectively the SRTP context. *)
Definition answers_no_rtp : collaborators :=
  {| socket_init_result := RTP_OK; raw_socket := 3;
     sys_bind_result := 0; socket_bind_result := RTP_OK;
     alloc_rtp := false; alloc_srtp := true;
     alloc_sender := true; alloc_receiver := true;
     rtp_ssrc := 2864434397;
     zrtp_init_result := RTP_OK; srtp_init_zrtp_result := RTP_OK |}.

Definition answers_no_srtp : collaborators :=
  {| socket_init_result := RTP_OK; raw_socket := 3;
     sys_bind_result := 0; socket_bind_result := RTP_OK;
     alloc_rtp := true; alloc_srtp := false;
     alloc_sender := true; alloc_receiver := true;
     rtp_ssrc := 2864434397;
     zrtp_init_result := RTP_OK; srtp_init_zrtp_result := RTP_OK |}.

(** A computation that releases nothing. *)
Definition heap_grows {A} (x : M A) : Prop :=
  ∀ m a, a ∈ live m → a ∈ live (after (x m)).

(** * Properties *)

(** ** Symbolic execution *)

(** The scrutinee on which the evaluation of a term is blocked. *)
Ltac stuck T :=
  lazymatch T with
  | (if ?s then _ else _) => stuck s
  | (match ?s with (_, _) => _ end) => stuck s
  | (match ?s with Ret _ => _ | Bad_alloc => _ | Fault => _ end) => stuck s
  | (match ?s with nullptr => _ | indeterminate => _ | obj _ => _ end) => stuck s
  | ?f ?a =>
      lazymatch f with
      | (if _ then _ else _) => stuck f
      | (match _ with (_, _) => _ end) => stuck f
      | (match _ with Ret _ => _ | Bad_alloc => _ | Fault => _ end) => stuck f
      | (match _ with nullptr => _ | indeterminate => _ | obj _ => _ end) => stuck f
      | _ => T
      end
  | _ => T
  end.

Ltac stabilise :=
  repeat match goal with
         | H : ¬ (_ ≠ _) |- _ => apply dec_stable in H
         end.

(** One step of a run [x m = (m', o) → _]: decide the blocked scrutinee. *)
Ltac exec_step :=
  lazymatch goal with
  | |- ?L = _ → _ =>
      let s := stuck L in
      lazymatch s with
      | (_, _) => fail
      | bool_decide (?a ∈ ?l) =>
          first [ rewrite (bool_decide_eq_true_2 (a ∈ l)) by set_solver
                | destruct s eqn:? ]
      | decide _ => destruct s
      | _ => destruct s eqn:?
      end
  end.

Ltac exec :=
  repeat (simpl; exec_step); simpl; rewrite <- ?app_assoc; simpl; stabilise.

(** Case analysis of a membership [e ∈ l ++ [e1; ...; en]]. *)
Ltac in_log H :=
  repeat first
    [ apply elem_of_app in H as [H|H]
    | apply elem_of_cons in H as [H|H]
    | apply elem_of_nil in H; destruct H ].

Ltac unfold_ops :=
  unfold set_destination, start_sender_receiver, discard, get, this,
    bind, pure, emit, modify, new, deref, delete, fault, is_live, result, after in *.

(** ** Bit-level facts about [int] *)

Lemma lor_below_pow2 (a b n : Z) :
  0 <= a < 2 ^ n → 0 <= b < 2 ^ n → 0 <= Z.lor a b < 2 ^ n.
Proof.
  intros [Ha Ha'] [Hb Hb']. split; [by apply Z.lor_nonneg|].
  destruct (Z.eq_dec (Z.lor a b) 0) as [->|Hne]; [lia|].
  assert (0 < Z.lor a b) by (pose proof (proj2 (Z.lor_nonneg a b) (conj Ha Hb)); lia).
  apply Z.log2_lt_pow2; [done|].
  rewrite Z.log2_lor by done.
  destruct (Z.eq_dec a 0) as [->|]; destruct (Z.eq_dec b 0) as [->|];
    rewrite ?Z.lor_0_l, ?Z.lor_0_r in *; try lia.
  - rewrite Z.max_r by apply Z.log2_nonneg. apply Z.log2_lt_pow2; lia.
  - rewrite Z.max_l by apply Z.log2_nonneg. apply Z.log2_lt_pow2; lia.
  - apply Z.max_lub_lt; apply Z.log2_lt_pow2; lia.
Qed.

Lemma ldiff_below_pow2 (x b n : Z) :
  0 <= x < 2 ^ n → 0 <= b → 0 <= Z.ldiff x b < 2 ^ n.
Proof.
  intros [Hx Hx'] Hb.
  assert (0 <= Z.ldiff x b) as H0 by (apply Z.ldiff_nonneg; lia).
  split; [done|].
  assert (0 <= Z.land x b) as H1 by (apply Z.land_nonneg; lia).
  destruct (Z.eq_dec (Z.ldiff x b) 0) as [->|Hne]; [lia|].
  apply Z.log2_lt_pow2; [lia|].
  pose proof (Z.lor_ldiff_and x b) as E.
  pose proof (Z.log2_lor _ _ H0 H1) as L. rewrite E in L.
  assert (x ≠ 0) by (intros ->; rewrite Z.ldiff_0_l in Hne; lia).
  assert (Z.log2 x < n) by (apply Z.log2_lt_pow2; lia).
  lia.
Qed.

(** OR-ing a non-negative [int] into an [int] stays inside [int]: the
    mathematical [Z.lor] is the machine operation. *)
Lemma lor_int_range (a f : Z) :
  int_range a → 0 <= f < 2 ^ 31 → int_range (Z.lor a f).
Proof.
  unfold int_range. intros Ha Hf.
  destruct (Z_lt_le_dec a 0) as [Hneg|Hpos].
  - assert (Z.lor a f < 0) by (apply Z.lor_neg; lia).
    split; [|lia].
    assert (0 <= Z.lnot a < 2 ^ 31) as Hx by (unfold Z.lnot; lia).
    pose proof (ldiff_below_pow2 (Z.lnot a) f 31 Hx (proj1 Hf)) as Hd.
    assert (Z.lor a f = Z.lnot (Z.ldiff (Z.lnot a) f)) as ->.
    { rewrite Z.lnot_ldiff. by rewrite Z.lnot_involutive. }
    unfold Z.lnot in *. lia.
  - pose proof (lor_below_pow2 a f 31 ltac:(lia) Hf). lia.
Qed.

Section Properties.

Variable B : build.

(** ** The configuration setters *)

Lemma configure_ctx_rejects (flag : Z) (m : machine) :
  flag < 0 ∨ flag >= RCE_LAST B →
  configure_ctx B flag m = (m, Ret RTP_INVALID_VALUE).
Proof. intros H. unfold configure_ctx. by rewrite decide_True. Qed.

Lemma configure_ctx_accepts (flag : Z) (m : machine) :
  0 <= flag < RCE_LAST B →
  configure_ctx B flag m =
    (Machine (set_ctx_config_
                (CtxConf (Z.lor (flags (ctx_config_ (self m))) flag)
                         (ctx_values (ctx_config_ (self m)))) (self m))
             (live m) (fresh m) (log m), Ret RTP_OK).
Proof. intros H. unfold configure_ctx. rewrite decide_False by lia. done. Qed.

Lemma configure_ctx_value_rejects (flag value : Z) (m : machine) :
  flag < 0 ∨ flag >= RCC_LAST B ∨ value < 0 →
  configure_ctx_value B flag value m = (m, Ret RTP_INVALID_VALUE).
Proof. intros H. unfold configure_ctx_value. by rewrite decide_True. Qed.

Lemma configure_ctx_value_accepts (flag value : Z) (m : machine) :
  0 <= flag < RCC_LAST B → 0 <= value →
  configure_ctx_value B flag value m =
    (Machine (set_ctx_config_
                (CtxConf (flags (ctx_config_ (self m)))
                         (<[Z.to_nat flag := value]> (ctx_values (ctx_config_ (self m)))))
                (self m))
             (live m) (fresh m) (log m), Ret RTP_OK).
Proof. intros H Hv. unfold configure_ctx_value. rewrite decide_False by lia. done. Qed.

(** The constructor gives [ctx_values] its declared length, and the setter
    keeps it. *)
Lemma ctor_ctx_values_length g addr sp dp fmt fl :
  length (ctx_values (ctx_config_ (media_stream_ctor B g addr sp dp fmt fl)))
  = Z.to_nat (RCC_LAST B).
Proof. simpl. by rewrite length_replicate. Qed.

Lemma configure_ctx_value_length (flag value : Z) (m : machine) :
  length (ctx_values (ctx_config_ (self (after (configure_ctx_value B flag value m)))))
  = length (ctx_values (ctx_config_ (self m))).
Proof.
  unfold configure_ctx_value. case_decide; [done|]. simpl. by rewrite length_insert.
Qed.

(** The flag field stays a representable [int]. *)
Lemma configure_ctx_int_range (flag : Z) (m : machine) :
  RCE_LAST B <= 2 ^ 31 →
  int_range (flags (ctx_config_ (self m))) →
  int_range (flags (ctx_config_ (self (after (configure_ctx B flag m))))).
Proof.
  intros HB Hr. unfold configure_ctx. case_decide; [done|]. simpl.
  apply lor_int_range; [done|lia].
Qed.

(** C6: [configure_ctx(flag)] rejects a flag that is negative or not below
    [RCE_LAST] with [RTP_INVALID_VALUE] and leaves the whole machine as it
    was; for a flag in range it returns [RTP_OK], the bitmask becomes the
    old one OR-ed with the flag and nothing else changes; a second call
    with the same flag succeeds and changes nothing; and when the flag was
    given at construction the first call already changes nothing. *)
Theorem configure_ctx_flag_spec (flag : Z) (m : machine) :
  ((flag < 0 ∨ flag >= RCE_LAST B) →
     configure_ctx B flag m = (m, Ret RTP_INVALID_VALUE)) ∧
  (0 <= flag < RCE_LAST B →
     let m1 := after (configure_ctx B flag m) in
     result (configure_ctx B flag m) = Ret RTP_OK ∧
     flags (ctx_config_ (self m1)) = Z.lor (flags (ctx_config_ (self m))) flag ∧
     m1 = Machine (set_ctx_config_
                     (CtxConf (Z.lor (flags (ctx_config_ (self m))) flag)
                              (ctx_values (ctx_config_ (self m)))) (self m))
                  (live m) (fresh m) (log m) ∧
     configure_ctx B flag m1 = (m1, Ret RTP_OK) ∧
     (∀ g addr sp dp fmt others l n,
        let m0 := boot (media_stream_ctor B g addr sp dp fmt (Z.lor others flag)) l n in
        configure_ctx B flag m0 = (m0, Ret RTP_OK))).
Proof.
  split; [apply configure_ctx_rejects|].
  intros H m1. subst m1. rewrite (configure_ctx_accepts flag m H). simpl.
  repeat split.
  - rewrite configure_ctx_accepts by done. simpl.
    by rewrite <- Z.lor_assoc, Z.lor_diag.
  - intros. rewrite configure_ctx_accepts by done. simpl.
    by rewrite <- Z.lor_assoc, Z.lor_diag.
Qed.

(** C7: [configure_ctx(flag, value)] rejects a negative key, a key not
    below [RCC_LAST] and a negative value with [RTP_INVALID_VALUE], leaving
    the whole machine as it was; otherwise it returns [RTP_OK], entry
    [flag] of the table holds [value], every other entry and everything
    else in the orchestrator is as before. *)
Theorem configure_ctx_value_spec (flag value : Z) (m : machine) :
  ((flag < 0 ∨ flag >= RCC_LAST B ∨ value < 0) →
     configure_ctx_value B flag value m = (m, Ret RTP_INVALID_VALUE)) ∧
  (0 <= flag < RCC_LAST B → 0 <= value →
   length (ctx_values (ctx_config_ (self m))) = Z.to_nat (RCC_LAST B) →
     let m1 := after (configure_ctx_value B flag value m) in
     let table := ctx_values (ctx_config_ (self m)) in
     let table1 := ctx_values (ctx_config_ (self m1)) in
     result (configure_ctx_value B flag value m) = Ret RTP_OK ∧
     table1 !! Z.to_nat flag = Some value ∧
     (∀ j : nat, j ≠ Z.to_nat flag → table1 !! j = table !! j) ∧
     length table1 = length table ∧
     m1 = Machine (set_ctx_config_
                     (CtxConf (flags (ctx_config_ (self m))) table1) (self m))
                  (live m) (fresh m) (log m)).
Proof.
  split; [apply configure_ctx_value_rejects|].
  intros H Hv Hlen m1 table table1. subst m1 table table1.
  rewrite (configure_ctx_value_accepts flag value m H Hv). simpl.
  repeat split.
  - apply list_lookup_insert_eq. rewrite Hlen. lia.
  - intros j Hj. by apply list_lookup_insert_ne.
  - by rewrite length_insert.
Qed.

(** ** Connection establishment *)

Lemma connected_ok t :
  connected RTP_OK t = set_addr_out_ (create_sockaddr (addr_ t) (dst_port_ t)) t.
Proof. done. Qed.

Lemma connected_failed r t : r ≠ RTP_OK → connected r t = t.
Proof. intros H. unfold connected. by rewrite decide_False. Qed.

(** [init_connection] always returns; it writes no member but
    [addr_out_], allocates nothing, and makes no call but those of
    connection establishment, all of them on the socket when it
    succeeds. *)
Lemma init_connection_frame c m :
  ∃ evs r,
    init_connection B c m
    = (Machine (connected r (self m)) (live m) (fresh m) (log m ++ evs), Ret r)
    ∧ Forall (λ e, connection_event e = true) evs
    ∧ (r = RTP_OK → Forall (λ e, transport_event e = true) evs).
Proof.
  destruct (init_connection B c m) as [m' o] eqn:Hrun. revert Hrun.
  unfold init_connection, connected. unfold_ops.
  exec; intros [= <- <-];
    match goal with |- ∃ _ r, (_, Ret ?x) = _ ∧ _ => eexists _, x end;
    repeat case_decide; try congruence;
    (split; [reflexivity|]);
    (split; [repeat constructor | intros; try congruence; repeat constructor]).
Qed.

Lemma connection_not_sender_receiver e :
  connection_event e = true → sender_receiver_event e = false.
Proof. by destruct e. Qed.

Lemma connection_only_no_sender_receiver evs :
  Forall (λ e, connection_event e = true) evs →
  Forall (λ e, sender_receiver_event e = false) evs.
Proof. intros H. eapply Forall_impl; [exact H|]. apply connection_not_sender_receiver. Qed.

Lemma init_connection_socket_failure c m :
  socket_init_result c ≠ RTP_OK →
  init_connection B c m
  = (Machine (self m) (live m) (fresh m)
       (log m ++ [socket_init (socket_init_result c)]),
     Ret (socket_init_result c)).
Proof.
  intros H. unfold init_connection. unfold_ops. simpl.
  by rewrite decide_True.
Qed.

Lemma init_connection_local c m :
  socket_init_result c = RTP_OK → laddr_ (self m) ≠ "" →
  init_connection B c m
  = if decide (sys_bind_result c = -1)
    then (Machine (self m) (live m) (fresh m)
            (log m ++ socket_init RTP_OK :: nonblocking_setup B c ++
               sys_bind (raw_socket c)
                 (create_sockaddr (laddr_ (self m)) (src_port_ (self m)))
                 (sys_bind_result c)
               :: bind_failure_report B),
          Ret RTP_BIND_ERROR)
    else (Machine (connected RTP_OK (self m)) (live m) (fresh m)
            (log m ++ socket_init RTP_OK :: nonblocking_setup B c ++
               [sys_bind (raw_socket c)
                  (create_sockaddr (laddr_ (self m)) (src_port_ (self m)))
                  (sys_bind_result c);
                socket_set_sockaddr
                  (create_sockaddr (addr_ (self m)) (dst_port_ (self m)))]),
          Ret RTP_OK).
Proof.
  intros H Hl. unfold init_connection, nonblocking_setup, bind_failure_report.
  unfold_ops. simpl.
  rewrite H. rewrite decide_False by (intros X; by apply X).
  destruct (win32 B); simpl; rewrite decide_True by done;
    case_decide; simpl; rewrite <- ?app_assoc; try done;
    destruct (linux B); simpl; rewrite <- ?app_assoc; done.
Qed.

Lemma init_connection_wildcard c m :
  socket_init_result c = RTP_OK → laddr_ (self m) = "" →
  init_connection B c m
  = if decide (socket_bind_result c ≠ RTP_OK)
    then (Machine (self m) (live m) (fresh m)
            (log m ++ socket_init RTP_OK :: nonblocking_setup B c ++
               [socket_bind_any (src_port_ (self m)) (socket_bind_result c)]),
          Ret (socket_bind_result c))
    else (Machine (connected RTP_OK (self m)) (live m) (fresh m)
            (log m ++ socket_init RTP_OK :: nonblocking_setup B c ++
               [socket_bind_any (src_port_ (self m)) (socket_bind_result c);
                socket_set_sockaddr
                  (create_sockaddr (addr_ (self m)) (dst_port_ (self m)))]),
          Ret (socket_bind_result c)).
Proof.
  intros H Hl. unfold init_connection, nonblocking_setup. unfold_ops. simpl.
  rewrite H. rewrite decide_False by (intros X; by apply X).
  destruct (win32 B); simpl; rewrite decide_False by (intros X; by apply X);
    case_decide; simpl; rewrite <- ?app_assoc; done.
Qed.

Lemma nonblocking_setup_no_step c e :
  e ∈ nonblocking_setup B c → bind_event e = false ∧ failed_step e = false.
Proof.
  unfold nonblocking_setup. destruct (win32 B); intros H; in_log H.
  by subst.
Qed.

Lemma bind_failure_report_only e :
  e ∈ bind_failure_report B → e = win_get_last_error ∧ linux B = false.
Proof.
  unfold bind_failure_report. destruct (linux B); intros H; in_log H.
  by subst.
Qed.

(** A failed connection establishment stops at the step that failed: the
    members, the heap and the allocator are as before, and the log ends
    with the failing call, followed only by the error report of a failed
    [::bind] on a build without [__linux__]. *)
Lemma init_connection_failure c m r :
  result (init_connection B c m) = Ret r → r ≠ RTP_OK →
  ∃ pre last,
    init_connection B c m
    = (Machine (self m) (live m) (fresh m)
         (log m ++ pre ++ [last] ++ report_after B last), Ret r)
    ∧ failed_step last = true
    ∧ Forall (λ e, failed_step e = false) pre.
Proof.
  destruct (decide (socket_init_result c = RTP_OK)) as [Hs|Hs].
  - assert (Forall (λ e, failed_step e = false)
              (socket_init RTP_OK :: nonblocking_setup B c)) as Hpre.
    { constructor; [done|]. apply Forall_forall. intros e He.
      by apply nonblocking_setup_no_step in He as [_ ?]. }
    destruct (decide (laddr_ (self m) ≠ "")) as [Hl|Hl].
    + rewrite init_connection_local by done. case_decide as Hb; simpl.
      * intros [= <-] _.
        exists (socket_init RTP_OK :: nonblocking_setup B c),
          (sys_bind (raw_socket c)
             (create_sockaddr (laddr_ (self m)) (src_port_ (self m)))
             (sys_bind_result c)).
        split; [simpl; by rewrite <- ?app_assoc|].
        split; [simpl; by rewrite bool_decide_eq_true_2|done].
      * intros [= <-] Hr. done.
    + apply dec_stable in Hl. rewrite init_connection_wildcard by done.
      case_decide as Hb; simpl.
      * intros [= <-] _.
        exists (socket_init RTP_OK :: nonblocking_setup B c),
          (socket_bind_any (src_port_ (self m)) (socket_bind_result c)).
        split; [simpl; by rewrite ?app_nil_r|].
        split; [simpl; by rewrite bool_decide_eq_true_2|done].
      * intros [= <-] Hr. done.
  - rewrite init_connection_socket_failure by done. simpl.
    intros [= <-] _. exists [], (socket_init (socket_init_result c)).
    split; [done|]. split; [simpl; by rewrite bool_decide_eq_true_2|done].
Qed.

Lemma init_aborts c m r :
  result (init_connection B c m) = Ret r → r ≠ RTP_OK →
  init B c m = (after (init_connection B c m), Ret RTP_GENERIC_ERROR).
Proof.
  unfold init, bind. destruct (init_connection B c m) as [m1 [r1| |]]; simpl;
    intros [= ->] Hr. by rewrite decide_True.
Qed.

Lemma init_zrtp_aborts zrtp c m r :
  result (init_connection B c m) = Ret r → r ≠ RTP_OK →
  init_zrtp B zrtp c m = (after (init_connection B c m), Ret RTP_GENERIC_ERROR).
Proof.
  unfold init_zrtp, bind. destruct (init_connection B c m) as [m1 [r1| |]]; simpl;
    intros [= ->] Hr. by rewrite decide_True.
Qed.

(** C5: an orchestrator constructed with a non-empty local address binds
    with [::bind] to exactly (that address, the source port), and one
    constructed without a local address binds through [socket_.bind] to
    (INADDR_ANY, the source port); no other bind is attempted, and a
    successful establishment has performed that bind successfully.  When a
    step of the establishment fails, the log ends with that step,
    followed only by the error report that a build without [__linux__]
    makes after a failed [::bind]; the members, heap and allocator are
    untouched, and both forms of [init] return at once with nothing
    constructed. *)
Theorem connection_binding (c : collaborators) :
  (∀ g remote local sp dp fmt fl l n,
     local ≠ "" →
     let m := boot (media_stream_ctor_local B g remote local sp dp fmt fl) l n in
     let m1 := after (init_connection B c m) in
     let bound := sys_bind (raw_socket c) (Sockaddr local sp) (sys_bind_result c) in
     (∀ e, e ∈ log m1 → bind_event e = true → e = bound) ∧
     (socket_init_result c = RTP_OK → bound ∈ log m1) ∧
     (result (init_connection B c m) = Ret RTP_OK → sys_bind_result c ≠ -1)) ∧
  (∀ g remote sp dp fmt fl l n,
     let m := boot (media_stream_ctor B g remote sp dp fmt fl) l n in
     let m1 := after (init_connection B c m) in
     let bound := socket_bind_any sp (socket_bind_result c) in
     (∀ e, e ∈ log m1 → bind_event e = true → e = bound) ∧
     (socket_init_result c = RTP_OK → bound ∈ log m1) ∧
     (result (init_connection B c m) = Ret RTP_OK → socket_bind_result c = RTP_OK)) ∧
  (∀ m r,
     result (init_connection B c m) = Ret r → r ≠ RTP_OK →
     let m1 := after (init_connection B c m) in
     self m1 = self m ∧ live m1 = live m ∧ fresh m1 = fresh m ∧
     (∃ pre last, log m1 = log m ++ pre ++ [last] ++ report_after B last
                  ∧ failed_step last = true
                  ∧ Forall (λ e, failed_step e = false) pre) ∧
     init B c m = (m1, Ret RTP_GENERIC_ERROR) ∧
     (∀ zrtp, init_zrtp B zrtp c m = (m1, Ret RTP_GENERIC_ERROR))).
Proof.
  split; [|split].
  - intros g remote local sp dp fmt fl l n Hl m m1 bound. subst m1 bound.
    destruct (decide (socket_init_result c = RTP_OK)) as [Hs|Hs].
    + rewrite init_connection_local by done.
      case_decide as Hb; simpl; (split; [|split]).
      all: try (intros e He Hbe; in_log He; subst; try done;
                first [ by apply nonblocking_setup_no_step in He as [? _]; congruence
                      | by apply bind_failure_report_only in He as [-> _] ]).
      all: try (intros _; set_solver).
      all: try done.
    + rewrite init_connection_socket_failure by done. simpl.
      split; [|split]; try done.
      * intros e He Hbe. in_log He. by subst.
      * intros [= ?]. congruence.
  - intros g remote sp dp fmt fl l n m m1 bound. subst m1 bound.
    destruct (decide (socket_init_result c = RTP_OK)) as [Hs|Hs].
    + rewrite init_connection_wildcard by done.
      case_decide as Hb; simpl; (split; [|split]).
      all: try (intros e He Hbe; in_log He; subst; try done;
                by apply nonblocking_setup_no_step in He as [? _]; congruence).
      all: try (intros _; set_solver).
      all: try (intros [= ?]; congruence).
      all: try (intros _; by apply dec_stable in Hb).
    + rewrite init_connection_socket_failure by done. simpl.
      split; [|split]; try done.
      * intros e He Hbe. in_log He. by subst.
      * intros [= ?]. congruence.
  - intros m r Hres Hr m1. subst m1.
    pose proof (init_aborts c m r Hres Hr) as Hi.
    pose proof (λ zrtp, init_zrtp_aborts zrtp c m r Hres Hr) as Hz.
    destruct (init_connection_failure c m r Hres Hr) as (pre & last & E & Hl & Hp).
    rewrite E in *. simpl in *. repeat split; eauto.
Qed.

(** ** Plain bootstrap *)

Lemma init_connection_returns c m :
  ∃ r, result (init_connection B c m) = Ret r.
Proof.
  destruct (init_connection_frame c m) as (evs & r & -> & _). by exists r.
Qed.

(** C4: [init()] returns [RTP_GENERIC_ERROR] exactly when a step of
    connection establishment failed, whatever error that step reported,
    and then the members and the heap are as before and nothing but the
    calls of connection establishment was made; it returns [RTP_OK] when
    the connection is established and the three objects are allocated;
    and it returns no other value.  In particular it never returns
    [RTP_MEMORY_ERROR]: the allocation of the RTP context is not tested,
    where [init(zrtp)] tests the same allocation, and when it fails the
    call is left by [std::bad_alloc] with the connection established and
    nothing constructed.  Whenever the call does not return [RTP_OK],
    neither sender nor receiver has been started. *)
Theorem plain_bootstrap_outcomes (c : collaborators) (m : machine) :
  let run := init B c m in
  (result run = Ret RTP_GENERIC_ERROR ↔
     ∃ r, result (init_connection B c m) = Ret r ∧ r ≠ RTP_OK) ∧
  (result run = Ret RTP_GENERIC_ERROR →
     self (after run) = self m ∧ live (after run) = live m
     ∧ fresh (after run) = fresh m ∧
     ∃ evs, log (after run) = log m ++ evs
            ∧ Forall (λ e, connection_event e = true) evs) ∧
  (∀ r, result run = Ret r → r = RTP_OK ∨ r = RTP_GENERIC_ERROR) ∧
  (result (init_connection B c m) = Ret RTP_OK →
     alloc_rtp c = true → alloc_sender c = true → alloc_receiver c = true →
     result run = Ret RTP_OK) ∧
  (result (init_connection B c m) = Ret RTP_OK → alloc_rtp c = false →
     run = (after (init_connection B c m), Bad_alloc)) ∧
  (result run ≠ Ret RTP_OK →
     Forall (λ e, start_event e = false)
       (drop (length (log m)) (log (after run)))).
Proof.
  intros run. subst run.
  destruct (init_connection_frame c m) as (evs0 & r & E & Hev & _).
  assert (Forall (λ e, start_event e = false) evs0) as Hns.
  { eapply Forall_impl; [exact Hev|]. by intros []. }
  destruct (init B c m) as [m' o] eqn:Hrun. revert Hrun.
  unfold init. unfold bind at 1. rewrite E. clear E.
  destruct (decide (r = RTP_OK)) as [->|Hr];
    [rewrite connected_ok | rewrite connected_failed by done].
  all: unfold_ops.
  all: exec; intros [= <- <-]; simpl; rewrite ?drop_app_length.
  all: split; [split; [try done; intros ?; by exists r
                      |first [done | intros (r0 & [= <-] & ?); done]]|].
  all: split; [first [done | intros _; repeat split; by exists evs0]|].
  all: split; [intros r0 [= <-]; auto|].
  all: split; [first [done | congruence]|].
  all: split; [first [done | congruence]|].
  all: first [done | intros _; apply Forall_app_2; [done|by repeat constructor] | idtac].
Qed.

(** ** Secure bootstrap *)

(** C1: in [init(zrtp)], when the ZRTP handshake was performed and reported
    an error, the call returns exactly that error, no sender or receiver
    was constructed or started, no SRTP context was attached to the socket
    and the members [sender_], [receiver_] and [srtp_] are as before; and
    whenever the call returns [RTP_OK], the log of the call ends with the
    attachment of the SRTP context to the socket followed by the
    construction and the start of sender and receiver, none of which
    occurs earlier. *)
Theorem secure_bootstrap_order (zrtp : ptr) (c : collaborators) (m : machine) :
  let m' := after (init_zrtp B zrtp c m) in
  ∃ evs,
    log m' = log m ++ evs ∧
    (∀ z ssrc raw dest e,
       zrtp_init z ssrc raw dest e ∈ evs → e ≠ RTP_OK →
       result (init_zrtp B zrtp c m) = Ret e ∧
       Forall (λ ev, sender_receiver_event ev = false) evs ∧
       (∀ s, socket_set_srtp s ∉ evs) ∧
       sender_ (self m') = sender_ (self m) ∧
       receiver_ (self m') = receiver_ (self m) ∧
       srtp_ (self m') = srtp_ (self m)) ∧
    (result (init_zrtp B zrtp c m) = Ret RTP_OK →
       ∃ pre s snd rcv conf fmt rtp,
         evs = pre ++ [socket_set_srtp (obj s);
                       new_sender (obj snd) conf fmt rtp;
                       new_receiver (obj rcv) conf fmt rtp;
                       sender_init snd; receiver_start rcv] ∧
         Forall (λ ev, sender_receiver_event ev = false) pre ∧
         (∀ p, socket_set_srtp p ∉ pre) ∧
         srtp_ (self m') = obj s ∧
         sender_ (self m') = obj snd ∧
         receiver_ (self m') = obj rcv).
Proof.
  intros m'. subst m'.
  destruct (init_connection_frame c m) as (evs0 & r & E & Hev & Htr).
  pose proof (connection_only_no_sender_receiver _ Hev) as Hsr.
  rewrite Forall_forall in Hev.
  destruct (init_zrtp B zrtp c m) as [m' o] eqn:Hrun. revert Hrun.
  unfold init_zrtp. unfold bind at 1. rewrite E. clear E.
  destruct (decide (r = RTP_OK)) as [->|Hr];
    [rewrite connected_ok | rewrite connected_failed by done].
  all: unfold_ops.
  all: exec; intros [= <- <-]; simpl; rewrite <- ?app_assoc; simpl.
  all: eexists; (split; [reflexivity|]).
  all: split; [intros z ssrc raw dest e Hin Hne | intros Hok].
  all: try discriminate Hok; try congruence.
  all: try (exfalso; in_log Hin; try discriminate Hin;
            [apply Hev in Hin; discriminate Hin | congruence]).
  all: try (exfalso; in_log Hin; try discriminate Hin;
            apply Hev in Hin; discriminate Hin).
  - in_log Hin; try discriminate Hin.
    { apply Hev in Hin. discriminate Hin. }
    injection Hin as -> -> -> -> ->.
    split; [done|]. split; [|split; [|done]].
    + apply Forall_app. split; [done|]. by repeat constructor.
    + intros s Hs. in_log Hs; try discriminate Hs.
      apply Hev in Hs. discriminate Hs.
  - eexists (evs0 ++ [_; _; _; _]), _, _, _, _, _, _.
    split; [by rewrite <- app_assoc|].
    split; [|split; [|done]].
    + apply Forall_app. split; [done|]. by repeat constructor.
    + intros p Hp. in_log Hp; try discriminate Hp.
      apply Hev in Hp. discriminate Hp.
Qed.

(** ** The heap *)

Lemma release_head a l : release a (a :: l) = release a l.
Proof. unfold release. rewrite filter_cons. by rewrite decide_False by (intros X; by apply X). Qed.

Lemma release_other a x l : x ≠ a → release a (x :: l) = x :: release a l.
Proof. intros H. unfold release. rewrite filter_cons. by rewrite decide_True. Qed.

Lemma release_absent a l : a ∉ l → release a l = l.
Proof.
  intros H. unfold release. induction l as [|x l IH]; [done|].
  rewrite filter_cons. rewrite decide_True by set_solver.
  f_equal. apply IH. set_solver.
Qed.

Ltac heap_simpl H :=
  repeat first
    [ rewrite release_head
    | rewrite release_other by lia
    | rewrite release_absent
        by (let Hin := fresh in intros Hin; apply H in Hin; lia) ].

Lemma deref_valid m p :
  valid m p → ∃ a, p = obj a ∧ a ∈ live m ∧ deref p m = (m, Ret a).
Proof.
  intros (a & -> & Ha). exists a. repeat split; [done|].
  unfold deref, is_live. by rewrite bool_decide_eq_true_2.
Qed.

Lemma deref_invalid m p : ¬ valid m p → deref p m = (m, Fault).
Proof.
  intros H. destruct p as [| |a]; try done. unfold deref, is_live.
  rewrite bool_decide_eq_false_2; [done|]. intros Ha. apply H. by exists a.
Qed.

Lemma constructed_absent g addr sp dp fmt fl l n :
  let m := boot (media_stream_ctor B g addr sp dp fmt fl) l n in
  ¬ valid m (sender_ (self m)) ∧ ¬ valid m (receiver_ (self m))
  ∧ ¬ valid m (rtp_ (self m)) ∧ srtp_ (self m) = nullptr.
Proof. repeat split; intros (a & [=] & _). Qed.

(** ** Frame I/O and hooks *)

Lemma push_frame_forwards d n f ans m s :
  sender_ (self m) = obj s → s ∈ live m →
  push_frame d n f ans m
  = (Machine (self m) (live m) (fresh m)
       (log m ++ [sender_push_frame s d n f false ans]), Ret ans).
Proof.
  intros Hs Hl. unfold push_frame. unfold_ops. simpl. rewrite Hs.
  by rewrite bool_decide_eq_true_2.
Qed.

Lemma push_frame_unique_forwards d n f ans m s :
  sender_ (self m) = obj s → s ∈ live m →
  push_frame_unique d n f ans m
  = (Machine (self m) (live m) (fresh m)
       (log m ++ [sender_push_frame s d n f true ans]), Ret ans).
Proof.
  intros Hs Hl. unfold push_frame_unique. unfold_ops. simpl. rewrite Hs.
  by rewrite bool_decide_eq_true_2.
Qed.

Lemma pull_frame_forwards ans m r :
  receiver_ (self m) = obj r → r ∈ live m →
  pull_frame ans m
  = (Machine (self m) (live m) (fresh m)
       (log m ++ [receiver_pull_frame r ans]), Ret ans).
Proof.
  intros Hr Hl. unfold pull_frame. unfold_ops. simpl. rewrite Hr.
  by rewrite bool_decide_eq_true_2.
Qed.

(** Neither call tests its pointer: without a sender (receiver) the call
    is a dereference of an absent object. *)
Lemma push_frame_unguarded d n f ans m :
  ¬ valid m (sender_ (self m)) →
  push_frame d n f ans m = (m, Fault)
  ∧ push_frame_unique d n f ans m = (m, Fault).
Proof.
  intros H. apply deref_invalid in H.
  unfold push_frame, push_frame_unique, get, this, bind, pure. simpl.
  by rewrite H.
Qed.

Lemma pull_frame_unguarded ans m :
  ¬ valid m (receiver_ (self m)) → pull_frame ans m = (m, Fault).
Proof.
  intros H. apply deref_invalid in H.
  unfold pull_frame, get, this, bind, pure. simpl. by rewrite H.
Qed.

Lemma install_receive_hook_unguarded arg h m :
  ¬ valid m (receiver_ (self m)) →
  install_receive_hook arg (Some h) m = (m, Fault).
Proof.
  intros H. apply deref_invalid in H.
  unfold install_receive_hook, get, this, bind, pure. simpl. by rewrite H.
Qed.

Lemma install_deallocation_hook_unguarded h m :
  ¬ valid m (sender_ (self m)) →
  install_deallocation_hook (Some h) m = (m, Fault).
Proof.
  intros H. apply deref_invalid in H.
  unfold install_deallocation_hook, get, this, bind, pure. simpl. by rewrite H.
Qed.

(** A bootstrap that returned [RTP_OK] has constructed sender and
    receiver, and both are live. *)
Lemma init_constructs c m m1 :
  init B c m = (m1, Ret RTP_OK) →
  valid m1 (sender_ (self m1)) ∧ valid m1 (receiver_ (self m1)).
Proof.
  destruct (init_connection_frame c m) as (evs0 & r & E & _).
  unfold init. unfold bind at 1. rewrite E. clear E.
  destruct (decide (r = RTP_OK)) as [->|Hr];
    [rewrite connected_ok | rewrite connected_failed by done].
  all: unfold_ops.
  all: exec; intros [= <-]; simpl; unfold valid; simpl.
  all: split; eexists; (split; [reflexivity|set_solver]).
Qed.

Lemma init_zrtp_constructs zrtp c m m1 :
  init_zrtp B zrtp c m = (m1, Ret RTP_OK) →
  valid m1 (sender_ (self m1)) ∧ valid m1 (receiver_ (self m1)).
Proof.
  destruct (init_connection_frame c m) as (evs0 & r & E & _).
  unfold init_zrtp. unfold bind at 1. rewrite E. clear E.
  destruct (decide (r = RTP_OK)) as [->|Hr];
    [rewrite connected_ok | rewrite connected_failed by done].
  all: unfold_ops.
  all: exec; intros [= <-]; try congruence; simpl; unfold valid; simpl.
  all: split; eexists; (split; [reflexivity|set_solver]).
Qed.

(** C3 (amended): [push_frame] and [pull_frame] hand the call to the
    sender and the receiver without testing the pointer.  With a live
    sender (receiver), which every bootstrap that returned [RTP_OK]
    provides, the call is forwarded and the collaborator's answer is
    returned.  A bootstrap that failed at connection establishment leaves
    [sender_] and [receiver_] as they were, and with no live sender
    (receiver) the call is a dereference of an absent object, not an error
    return. *)
Theorem frame_io_forwarding (m : machine) :
  (∀ s d n f ans,
     sender_ (self m) = obj s → s ∈ live m →
     push_frame d n f ans m
     = (Machine (self m) (live m) (fresh m)
          (log m ++ [sender_push_frame s d n f false ans]), Ret ans)
     ∧ push_frame_unique d n f ans m
       = (Machine (self m) (live m) (fresh m)
            (log m ++ [sender_push_frame s d n f true ans]), Ret ans)) ∧
  (∀ r ans,
     receiver_ (self m) = obj r → r ∈ live m →
     pull_frame ans m
     = (Machine (self m) (live m) (fresh m)
          (log m ++ [receiver_pull_frame r ans]), Ret ans)) ∧
  (∀ c zrtp m0,
     init B c m0 = (m, Ret RTP_OK) ∨ init_zrtp B zrtp c m0 = (m, Ret RTP_OK) →
     valid m (sender_ (self m)) ∧ valid m (receiver_ (self m))) ∧
  (∀ c zrtp m0 r,
     result (init_connection B c m0) = Ret r → r ≠ RTP_OK →
     m = after (init B c m0) ∨ m = after (init_zrtp B zrtp c m0) →
     sender_ (self m) = sender_ (self m0) ∧ receiver_ (self m) = receiver_ (self m0)
     ∧ live m = live m0) ∧
  (∀ d n f ans,
     ¬ valid m (sender_ (self m)) →
     push_frame d n f ans m = (m, Fault)
     ∧ push_frame_unique d n f ans m = (m, Fault)) ∧
  (∀ ans, ¬ valid m (receiver_ (self m)) → pull_frame ans m = (m, Fault)).
Proof.
  split; [|split; [|split; [|split; [|split]]]].
  - intros s d n f ans Hs Hl. split.
    + by apply push_frame_forwards.
    + by apply push_frame_unique_forwards.
  - intros r ans Hr Hl. by apply pull_frame_forwards.
  - intros c zrtp m0 [H|H].
    + by apply (init_constructs c m0).
    + by apply (init_zrtp_constructs zrtp c m0).
  - intros c zrtp m0 r Hres Hr Hm.
    destruct (init_connection_failure c m0 r Hres Hr) as (pre & last & E & _).
    rewrite (init_aborts c m0 r Hres Hr), (init_zrtp_aborts zrtp c m0 r Hres Hr) in Hm.
    rewrite E in Hm. simpl in Hm. by destruct Hm as [-> | ->].
  - intros d n f ans. apply push_frame_unguarded.
  - intros ans. apply pull_frame_unguarded.
Qed.

(** C8 (amended): both hook installers return [RTP_INVALID_VALUE] for a
    null callback and then touch nothing, so that nothing reaches the
    receiver or the sender; for a non-null callback and a live receiver
    (sender) the callback is registered with it, unchanged, and [RTP_OK]
    is returned. *)
Theorem hook_installation (m : machine) :
  (∀ arg, install_receive_hook arg None m = (m, Ret RTP_INVALID_VALUE)) ∧
  install_deallocation_hook None m = (m, Ret RTP_INVALID_VALUE) ∧
  (∀ arg h r,
     receiver_ (self m) = obj r → r ∈ live m →
     install_receive_hook arg (Some h) m
     = (Machine (self m) (live m) (fresh m)
          (log m ++ [receiver_install_recv_hook r arg (Some h)]), Ret RTP_OK)) ∧
  (∀ h s,
     sender_ (self m) = obj s → s ∈ live m →
     install_deallocation_hook (Some h) m
     = (Machine (self m) (live m) (fresh m)
          (log m ++ [sender_install_dealloc_hook s (Some h)]), Ret RTP_OK)).
Proof.
  split; [done|]. split; [done|]. split.
  - intros arg h r Hr Hl. unfold install_receive_hook. unfold_ops. simpl.
    rewrite Hr. by rewrite bool_decide_eq_true_2.
  - intros h s Hs Hl. unfold install_deallocation_hook. unfold_ops. simpl.
    rewrite Hs. by rewrite bool_decide_eq_true_2.
Qed.

(** ** The two constructors *)

(** C10: the constructor that takes a local address, given the empty
    string, builds the very orchestrator the other constructor builds;
    connection establishment on it is the same computation, and the only
    bind it attempts is the one to INADDR_ANY and the source port. *)
Theorem empty_local_address_is_wildcard g remote sp dp fmt fl :
  media_stream_ctor_local B g remote "" sp dp fmt fl
  = media_stream_ctor B g remote sp dp fmt fl ∧
  (∀ c l n,
     let m := boot (media_stream_ctor_local B g remote "" sp dp fmt fl) l n in
     let m1 := after (init_connection B c m) in
     init_connection B c m
     = init_connection B c (boot (media_stream_ctor B g remote sp dp fmt fl) l n)
     ∧ (∀ e, e ∈ log m1 → bind_event e = true →
          e = socket_bind_any sp (socket_bind_result c))
     ∧ (socket_init_result c = RTP_OK →
          socket_bind_any sp (socket_bind_result c) ∈ log m1)).
Proof.
  split; [done|]. intros c l n m m1. subst m m1.
  split; [done|].
  destruct (decide (socket_init_result c = RTP_OK)) as [Hs|Hs].
  - rewrite init_connection_wildcard by done.
    case_decide as Hb; simpl; split.
    all: try (intros e He Hbe; in_log He; subst; try done;
              by apply nonblocking_setup_no_step in He as [? _]; congruence).
    all: intros _; set_solver.
  - rewrite init_connection_socket_failure by done. simpl.
    split; [|done]. intros e He Hbe. in_log He. by subst.
Qed.

(** ** The session identity *)

Section Keeps.

Context {F : Type} (field : media_stream → F).

Lemma keeps_pure {A} (a : A) : keeps field (pure a).
Proof. by intros m. Qed.

Lemma keeps_fault {A} : keeps field (@fault A).
Proof. by intros m. Qed.

Lemma keeps_bind {A C} (x : M A) (k : A → M C) :
  keeps field x → (∀ a, keeps field (k a)) → keeps field (bind x k).
Proof.
  intros Hx Hk m. unfold bind, after. specialize (Hx m). unfold after in Hx.
  destruct (x m) as [m1 [a| |]]; simpl in *; [|done|done].
  rewrite <- Hx. apply Hk.
Qed.

Lemma keeps_this : keeps field this.
Proof. by intros m. Qed.

Lemma keeps_get {A} (g : media_stream → A) : keeps field (get g).
Proof. by intros m. Qed.

Lemma keeps_emit e : keeps field (emit e).
Proof. by intros m. Qed.

Lemma keeps_deref p : keeps field (deref p).
Proof. intros m. unfold deref. destruct p; try done. by destruct (is_live a m). Qed.

Lemma keeps_new ok : keeps field (new ok).
Proof. intros m. by destruct ok. Qed.

Lemma keeps_delete p : keeps field (delete p).
Proof. intros m. unfold delete. destruct p; try done. by destruct (is_live a m). Qed.

Lemma keeps_modify f : (∀ t, field (f t) = field t) → keeps field (modify f).
Proof. intros H m. apply H. Qed.

Lemma keeps_discard {A} (x : M A) : keeps field x → keeps field (discard x).
Proof.
  intros H m. specialize (H m). unfold discard, after in *.
  by destruct (x m) as [m1 [a| |]].
Qed.

End Keeps.

(** Takes a computation apart along its binds and branches. *)
Ltac keep :=
  repeat first
    [ apply keeps_pure | apply keeps_fault | apply keeps_this | apply keeps_get
    | apply keeps_emit | apply keeps_deref | apply keeps_new | apply keeps_delete
    | apply keeps_modify; done
    | apply keeps_discard
    | apply keeps_bind; [|intros ?]
    | case_decide
    | match goal with |- keeps _ (if ?b then _ else _) => destruct b end ].

Lemma init_connection_keeps_key c : keeps key_ (init_connection B c).
Proof. unfold init_connection, set_destination. keep. Qed.

Lemma start_sender_receiver_keeps_key c : keeps key_ (start_sender_receiver c).
Proof. unfold start_sender_receiver. keep. Qed.

Lemma init_keeps_key c : keeps key_ (init B c).
Proof.
  unfold init. apply keeps_bind; [apply init_connection_keeps_key|]. intros r.
  case_decide; [apply keeps_pure|].
  repeat (apply keeps_bind; [first [apply start_sender_receiver_keeps_key | by keep]|];
          intros ?).
  apply keeps_pure.
Qed.

Lemma init_zrtp_keeps_key zrtp c : keeps key_ (init_zrtp B zrtp c).
Proof.
  unfold init_zrtp. apply keeps_bind; [apply init_connection_keeps_key|]. intros r.
  repeat first
    [ apply start_sender_receiver_keeps_key
    | apply keeps_pure | apply keeps_get | apply keeps_emit | apply keeps_deref
    | apply keeps_new | apply keeps_modify; done
    | apply keeps_bind; [|intros ?]
    | case_decide ].
Qed.

Lemma perform_keeps_key k : keeps key_ (perform B k).
Proof.
  destruct k; simpl.
  - apply keeps_discard, init_keeps_key.
  - apply keeps_discard, init_zrtp_keeps_key.
  - unfold push_frame. keep.
  - unfold push_frame_unique. keep.
  - unfold pull_frame. keep.
  - unfold install_receive_hook. keep.
  - unfold install_deallocation_hook. keep.
  - unfold set_media_config. keep.
  - unfold get_media_config. keep.
  - unfold configure_ctx_value. keep.
  - unfold configure_ctx. keep.
  - unfold get_key. keep.
Qed.

Lemma perform_all_keeps_key ks : keeps key_ (perform_all B ks).
Proof.
  induction ks as [|k ks IH]; simpl; [apply keeps_pure|].
  apply keeps_bind; [apply perform_keeps_key|]. by intros _.
Qed.

Lemma get_key_reads m : get_key m = (m, Ret (key_ (self m))).
Proof. done. Qed.

(** C9: [get_key()] on a constructed orchestrator returns the 32-bit value
    drawn by the constructor, it changes nothing, and after any sequence
    of bootstrap, frame I/O, hook and configuration calls, however each of
    them ended, it still returns that value. *)
Theorem session_key_is_fixed g remote local sp dp fmt fl l n (ks : list call) :
  let plain := boot (media_stream_ctor B g remote sp dp fmt fl) l n in
  let bound := boot (media_stream_ctor_local B g remote local sp dp fmt fl) l n in
  0 <= uint32 g < 2 ^ 32 ∧
  get_key plain = (plain, Ret (uint32 g)) ∧
  get_key bound = (bound, Ret (uint32 g)) ∧
  result (get_key (after (perform_all B ks plain))) = Ret (uint32 g) ∧
  result (get_key (after (perform_all B ks bound))) = Ret (uint32 g) ∧
  (∀ m, result (get_key (after (perform_all B ks m))) = result (get_key m)).
Proof.
  intros plain bound.
  split; [unfold uint32; apply Z.mod_pos_bound; lia|].
  split; [done|]. split; [done|].
  assert (∀ m, result (get_key (after (perform_all B ks m))) = result (get_key m)) as H.
  { intros m. rewrite !get_key_reads. simpl. f_equal. apply perform_all_keeps_key. }
  split; [by rewrite H|]. split; [by rewrite H|]. done.
Qed.

(** ** Teardown *)

(** The destructor begins with [sender_->destroy()]: without a live sender
    it faults at once, before anything is released. *)
Lemma destructor_unguarded m :
  ¬ valid m (sender_ (self m)) → destructor m = (m, Fault).
Proof.
  intros H. apply deref_invalid in H.
  unfold destructor, get, this, bind, pure. simpl. by rewrite H.
Qed.

(** C2 (amended): after a bootstrap that returned [RTP_OK], plain or
    secure, the destructor runs to its end: it destroys the sender, stops
    the receiver, then releases sender, receiver, the RTP context and the
    SRTP context, each object once and none used after its release, and
    the heap is back to what it was before the bootstrap.  The release of
    the SRTP context is a no-op on the plain path, where [srtp_] is still
    the null pointer of the constructor.  There is no test for an absent
    sender: without a live one the destructor stops at its first
    statement, a dereference of the absent object. *)
Theorem teardown_after_bootstrap (c : collaborators) (m m1 : machine) :
  heap_ok m →
  (srtp_ (self m) = nullptr → init B c m = (m1, Ret RTP_OK) →
   ∃ s r,
     sender_ (self m1) = obj s ∧ receiver_ (self m1) = obj r ∧
     srtp_ (self m1) = nullptr ∧
     destructor m1
     = (Machine (self m1) (live m) (fresh m1)
          (log m1 ++ [sender_destroy s; receiver_stop r; delete_obj s; delete_obj r]
             ++ release_of (rtp_ (self m1))),
        Ret tt) ∧
     NoDup ([delete_obj s; delete_obj r] ++ release_of (rtp_ (self m1)))) ∧
  (∀ zrtp, init_zrtp B zrtp c m = (m1, Ret RTP_OK) →
   ∃ s r t k,
     sender_ (self m1) = obj s ∧ receiver_ (self m1) = obj r ∧
     rtp_ (self m1) = obj t ∧ srtp_ (self m1) = obj k ∧
     destructor m1
     = (Machine (self m1) (live m) (fresh m1)
          (log m1 ++ [sender_destroy s; receiver_stop r;
                      delete_obj s; delete_obj r; delete_obj t; delete_obj k]),
        Ret tt) ∧
     NoDup [s; r; t; k]) ∧
  (∀ m', ¬ valid m' (sender_ (self m')) → destructor m' = (m', Fault)).
Proof.
  intros Hheap.
  destruct (init_connection_frame c m) as (evs0 & r & E & _).
  split; [intros Hsrtp|split; [intros zrtp|apply destructor_unguarded]].
  - unfold init. unfold bind at 1. rewrite E. clear E.
    destruct (decide (r = RTP_OK)) as [->|Hr];
      [rewrite connected_ok | rewrite connected_failed by done].
    all: unfold_ops.
    all: exec; intros [= <-]; simpl.
    all: eexists _, _; (split; [reflexivity|]); (split; [reflexivity|]).
    all: split; [done|].
    all: unfold destructor; unfold_ops; simpl.
    all: repeat (rewrite bool_decide_eq_true_2 by set_solver; simpl; heap_simpl Hheap).
    all: rewrite ?Hsrtp; simpl.
    all: rewrite <- ?app_assoc; simpl.
    all: split; [done|].
    all: repeat (apply NoDup_cons_2;
                 [let X := fresh in
                  intros X; in_log X; first [injection X as X; lia | lia]|]).
    all: apply NoDup_nil_2.
  - unfold init_zrtp. unfold bind at 1. rewrite E. clear E.
    destruct (decide (r = RTP_OK)) as [->|Hr];
      [rewrite connected_ok | rewrite connected_failed by done].
    all: unfold_ops.
    all: exec; intros [= <-]; try congruence; simpl.
    all: eexists _, _, _, _; do 4 (split; [reflexivity|]).
    all: unfold destructor; unfold_ops; simpl.
    all: repeat (rewrite bool_decide_eq_true_2 by set_solver; simpl; heap_simpl Hheap).
    all: rewrite <- ?app_assoc; simpl.
    all: split; [done|].
    all: repeat (apply NoDup_cons_2;
                 [let X := fresh in
                  intros X; in_log X; first [injection X as X; lia | lia]|]).
    all: apply NoDup_nil_2.
Qed.

(** ** Members that only their setter writes *)

Ltac keep_blind H :=
  repeat first
    [ apply keeps_pure | apply keeps_fault | apply keeps_this | apply keeps_get
    | apply keeps_emit | apply keeps_deref | apply keeps_new | apply keeps_delete
    | apply keeps_modify; intros ?; apply H
    | apply keeps_discard
    | apply keeps_bind; [|intros ?]
    | case_decide
    | match goal with |- keeps _ (if ?b then _ else _) => destruct b end ].

Section Blind.

Context {F : Type} (field : media_stream → F).
Hypothesis Hblind : bootstrap_blind field.

Lemma init_connection_keeps c : keeps field (init_connection B c).
Proof. unfold init_connection, set_destination. keep_blind Hblind. Qed.

Lemma start_sender_receiver_keeps c : keeps field (start_sender_receiver c).
Proof. unfold start_sender_receiver. keep_blind Hblind. Qed.

Lemma init_keeps c : keeps field (init B c).
Proof.
  unfold init. apply keeps_bind; [apply init_connection_keeps|]. intros r.
  case_decide; [apply keeps_pure|].
  repeat (apply keeps_bind;
          [first [apply start_sender_receiver_keeps | by keep_blind Hblind]|];
          intros ?).
  apply keeps_pure.
Qed.

Lemma init_zrtp_keeps zrtp c : keeps field (init_zrtp B zrtp c).
Proof.
  unfold init_zrtp. apply keeps_bind; [apply init_connection_keeps|]. intros r.
  repeat first
    [ apply start_sender_receiver_keeps
    | apply keeps_pure | apply keeps_get | apply keeps_emit | apply keeps_deref
    | apply keeps_new | apply keeps_modify; intros ?; apply Hblind
    | apply keeps_bind; [|intros ?]
    | case_decide ].
Qed.

Lemma destructor_keeps : keeps field destructor.
Proof. unfold destructor. keep_blind Hblind. Qed.

Lemma perform_keeps k :
  (writes_config k = true → ∀ c t, field (set_ctx_config_ c t) = field t) →
  (writes_media_config k = true → ∀ p t, field (set_media_config_ p t) = field t) →
  keeps field (perform B k).
Proof.
  intros Hc Hm. destruct k; simpl in *.
  - apply keeps_discard, init_keeps.
  - apply keeps_discard, init_zrtp_keeps.
  - unfold push_frame. keep_blind Hblind.
  - unfold push_frame_unique. keep_blind Hblind.
  - unfold pull_frame. keep_blind Hblind.
  - unfold install_receive_hook. keep_blind Hblind.
  - unfold install_deallocation_hook. keep_blind Hblind.
  - unfold set_media_config. apply keeps_modify. intros t. by apply Hm.
  - unfold get_media_config. keep_blind Hblind.
  - unfold configure_ctx_value. apply keeps_discard. case_decide; [apply keeps_pure|].
    apply keeps_bind; [|intros; apply keeps_pure].
    apply keeps_modify. intros t. by apply Hc.
  - unfold configure_ctx. apply keeps_discard. case_decide; [apply keeps_pure|].
    apply keeps_bind; [|intros; apply keeps_pure].
    apply keeps_modify. intros t. by apply Hc.
  - unfold get_key. keep_blind Hblind.
Qed.

Lemma perform_all_keeps ks :
  Forall (λ k,
    (writes_config k = true → ∀ c t, field (set_ctx_config_ c t) = field t)
    ∧ (writes_media_config k = true →
         ∀ p t, field (set_media_config_ p t) = field t)) ks →
  keeps field (perform_all B ks).
Proof.
  induction 1 as [|k ks [Hc Hm] _ IH]; simpl; [apply keeps_pure|].
  apply keeps_bind; [by apply perform_keeps|]. by intros _.
Qed.

End Blind.

Lemma endpoint_blind : bootstrap_blind endpoint.
Proof. intros t. repeat split. Qed.

Lemma media_config_blind : bootstrap_blind media_config_.
Proof. intros t. repeat split. Qed.

Lemma ctx_config_blind : bootstrap_blind ctx_config_.
Proof. intros t. repeat split. Qed.

(** X1: [get_media_config] returns the pointer of the last
    [set_media_config], whatever bootstrap, frame I/O, hook and
    configuration calls were made in between and however they ended;
    neither function can fault, [set_media_config] writes nothing but
    [media_config_] and [get_media_config] writes nothing. *)
Theorem media_config_round_trip (p : ptr) (ks : list call) (m : machine) :
  Forall (λ k, writes_media_config k = false) ks →
  set_media_config p m
  = (Machine (set_media_config_ p (self m)) (live m) (fresh m) (log m), Ret tt)
  ∧ get_media_config m = (m, Ret (media_config_ (self m)))
  ∧ result (get_media_config (after (perform_all B ks (after (set_media_config p m)))))
    = Ret p
  ∧ result (get_media_config (after (perform_all B ks m)))
    = result (get_media_config m).
Proof.
  intros Hks. split; [done|]. split; [done|].
  assert (keeps media_config_ (perform_all B ks)) as Hkeep.
  { apply perform_all_keeps; [apply media_config_blind|].
    eapply Forall_impl; [exact Hks|]. intros k Hk. simpl in Hk.
    split; [done|]. intros Hw. congruence. }
  split.
  - unfold get_media_config, get, this, bind, pure. simpl. f_equal. apply Hkeep.
  - unfold get_media_config, get, this, bind, pure. simpl. f_equal. apply Hkeep.
Qed.

(** X2: the remote address, the local address, the two ports, the payload
    format and the constructor's copy of the flags are never written
    after construction: any sequence of calls leaves them as they were.
    In particular [configure_ctx] adds its flag to [ctx_config_.flags]
    only, not to [flags_]. *)
Theorem endpoint_is_immutable (ks : list call) (m : machine) :
  endpoint (self (after (perform_all B ks m))) = endpoint (self m)
  ∧ (∀ flag,
       flags_ (self (after (configure_ctx B flag m))) = flags_ (self m)).
Proof.
  split.
  - apply perform_all_keeps; [apply endpoint_blind|].
    apply Forall_forall. intros k _. split; by intros _ ? ?.
  - intros flag. unfold configure_ctx. by case_decide.
Qed.

(** ** The configuration over a sequence of calls *)

Lemma after_bind {A C} (x : M A) (f : A → M C) m :
  after (bind x f m)
  = match result (x m) with
    | Ret a => after (f a (after (x m)))
    | _ => after (x m)
    end.
Proof. unfold bind, after, result. by destruct (x m) as [m1 [a| |]]. Qed.

Lemma after_discard {A} (x : M A) m : after (discard x m) = after (x m).
Proof. unfold discard, after. by destruct (x m) as [m1 [a| |]]. Qed.

(** Every call either leaves [ctx_config_] alone or is an accepted
    [configure_ctx]: a relation that those two steps respect holds between
    the configuration before and after any sequence of calls. *)
Lemma config_evolves (R : rtp_ctx_conf_t → rtp_ctx_conf_t → Prop) :
  (∀ c, R c c) → (∀ a b c, R a b → R b c → R a c) →
  (∀ c f, 0 <= f < RCE_LAST B →
          R c (CtxConf (Z.lor (flags c) f) (ctx_values c))) →
  (∀ c k v, 0 <= k < RCC_LAST B → 0 <= v →
            R c (CtxConf (flags c) (<[Z.to_nat k := v]> (ctx_values c)))) →
  ∀ ks m, R (ctx_config_ (self m)) (ctx_config_ (self (after (perform_all B ks m)))).
Proof.
  intros Hrefl Htrans Hflag Hvalue.
  assert (∀ k m, R (ctx_config_ (self m)) (ctx_config_ (self (after (perform B k m)))))
    as Hstep.
  { intros k m. destruct (writes_config k) eqn:Hw.
    - destruct k; try discriminate Hw; simpl; rewrite after_discard.
      + unfold configure_ctx_value. case_decide; [apply Hrefl|].
        simpl. apply Hvalue; lia.
      + unfold configure_ctx. case_decide; [apply Hrefl|].
        simpl. apply Hflag; lia.
    - rewrite (perform_keeps ctx_config_ ctx_config_blind k);
        [apply Hrefl | intros; congruence | by intros]. }
  induction ks as [|k ks IH]; intros m; simpl; [apply Hrefl|].
  rewrite after_bind. destruct (result (perform B k m)); [|apply Hstep..].
  eapply Htrans; [apply Hstep|apply IH].
Qed.

(** X3: no call ever clears a bit of the flag bitmask: every bit set in
    [ctx_config_.flags], by the constructor or by an accepted
    [configure_ctx], is still set after any sequence of calls; and with
    [RCE_LAST] itself an [int] the bitmask stays a representable [int]. *)
Theorem flags_only_grow (ks : list call) (m : machine) :
  let before := flags (ctx_config_ (self m)) in
  let later := flags (ctx_config_ (self (after (perform_all B ks m)))) in
  (∀ i, Z.testbit before i = true → Z.testbit later i = true)
  ∧ Z.lor later before = later
  ∧ (RCE_LAST B <= 2 ^ 31 → int_range before → int_range later).
Proof.
  intros before later. subst before later.
  assert (∀ i, Z.testbit (flags (ctx_config_ (self m))) i = true →
               Z.testbit (flags (ctx_config_ (self (after (perform_all B ks m))))) i
               = true) as Hbits.
  { intros i. revert ks m.
    apply (config_evolves
             (λ c c', Z.testbit (flags c) i = true → Z.testbit (flags c') i = true));
      [auto|auto| |auto].
    intros c f _ Hc. simpl. rewrite Z.lor_spec, Hc. done. }
  split; [exact Hbits|]. split.
  - apply Z.bits_inj'. intros i _. rewrite Z.lor_spec.
    destruct (Z.testbit (flags (ctx_config_ (self m))) i) eqn:Hi.
    + rewrite (Hbits i Hi). done.
    + by rewrite orb_false_r.
  - intros HB. clear Hbits. revert ks m.
    apply (config_evolves (λ c c', int_range (flags c) → int_range (flags c')));
      [auto|auto| |auto].
    intros c f Hf Hc. simpl. apply lor_int_range; [done|lia].
Qed.

(** X4: the table [ctx_values] never changes its length and never
    receives a negative value: on an orchestrator built by either
    constructor it has [RCC_LAST] entries, all non-negative, after any
    sequence of calls. *)
Theorem ctx_values_stay_valid (ks : list call) (m : machine) :
  let table := ctx_values (ctx_config_ (self m)) in
  let later := ctx_values (ctx_config_ (self (after (perform_all B ks m)))) in
  length later = length table
  ∧ (Forall (λ v, 0 <= v) table → Forall (λ v, 0 <= v) later)
  ∧ (∀ g remote local sp dp fmt fl l n,
       m = boot (media_stream_ctor B g remote sp dp fmt fl) l n
       ∨ m = boot (media_stream_ctor_local B g remote local sp dp fmt fl) l n →
       length later = Z.to_nat (RCC_LAST B) ∧ Forall (λ v, 0 <= v) later).
Proof.
  intros table later. subst table later.
  assert (length (ctx_values (ctx_config_ (self (after (perform_all B ks m)))))
          = length (ctx_values (ctx_config_ (self m)))) as Hlen.
  { revert ks m.
    apply (config_evolves (λ c c', length (ctx_values c') = length (ctx_values c)));
      [auto|intros a b c; congruence|auto|].
    intros c k v _ _. simpl. apply length_insert. }
  assert (Forall (λ v, 0 <= v) (ctx_values (ctx_config_ (self m))) →
          Forall (λ v, 0 <= v)
            (ctx_values (ctx_config_ (self (after (perform_all B ks m)))))) as Hpos.
  { clear Hlen. revert ks m.
    apply (config_evolves
             (λ c c', Forall (λ v, 0 <= v) (ctx_values c) →
                      Forall (λ v, 0 <= v) (ctx_values c')));
      [auto|auto|auto|].
    intros c k v _ Hv Hc. simpl. by apply Forall_insert. }
  split; [exact Hlen|]. split; [exact Hpos|].
  intros g remote local sp dp fmt fl l n Hm. split.
  - rewrite Hlen. destruct Hm as [-> | ->]; simpl; apply length_replicate.
  - apply Hpos. destruct Hm as [-> | ->]; simpl; by apply Forall_replicate.
Qed.

(** X5: the two configuration setters can be called in any order:
    two [configure_ctx(flag)] calls commute, [configure_ctx(flag)]
    commutes with [configure_ctx(key, value)], and two
    [configure_ctx(key, value)] calls on different keys commute, whether
    or not the arguments are accepted; on the same key the later accepted
    value replaces the earlier one. *)
Theorem configuration_setters_commute (m : machine) (f1 f2 k1 k2 v1 v2 : Z) :
  let flag f m := after (configure_ctx B f m) in
  let value k v m := after (configure_ctx_value B k v m) in
  flag f2 (flag f1 m) = flag f1 (flag f2 m)
  ∧ value k1 v1 (flag f1 m) = flag f1 (value k1 v1 m)
  ∧ (k1 ≠ k2 → value k2 v2 (value k1 v1 m) = value k1 v1 (value k2 v2 m))
  ∧ (0 <= v2 → value k1 v2 (value k1 v1 m) = value k1 v2 m).
Proof.
  intros flag value. subst flag value. simpl.
  unfold configure_ctx, configure_ctx_value.
  split; [|split; [|split]].
  - repeat case_decide; simpl; try done.
    by rewrite <- !Z.lor_assoc, (Z.lor_comm f1 f2).
  - repeat case_decide; simpl; done.
  - intros Hk. repeat case_decide; simpl; try done.
    rewrite list_insert_insert_ne; [done|]. lia.
  - intros Hv. repeat case_decide; simpl; try done; try lia.
    by rewrite list_insert_insert_eq.
Qed.

(** ** More on connection establishment *)

Lemma nonblocking_setup_only_ioctl c :
  filter (λ e, ioctl_event e = false) (nonblocking_setup B c) = []
  ∧ (∀ e, e ∈ nonblocking_setup B c →
       e = ioctlsocket_nonblock (raw_socket c) ∧ win32 B = true)
  ∧ (win32 B = true → ioctlsocket_nonblock (raw_socket c) ∈ nonblocking_setup B c).
Proof.
  unfold nonblocking_setup. destruct (win32 B).
  - split; [done|]. split.
    + intros ev Hev. in_log Hev. by subst.
    + intros _. apply list_elem_of_here.
  - split; [done|]. split; [|done].
    intros ev Hev. in_log Hev.
Qed.

(** X6: [init_connection] creates the socket first and attempts a bind
    exactly when the creation succeeded.  The destination (remote address,
    destination port) is stored in [addr_out_] and handed to the socket
    exactly when the call returns [RTP_OK]; on an error [addr_out_] is
    left as it was.  With a local address the only errors are the one of
    the socket creation and [RTP_BIND_ERROR]; without one they are the
    error of the socket creation and whatever [socket_.bind] returned. *)
Theorem connection_outcomes (c : collaborators) (m : machine) :
  let run := init_connection B c m in
  let dest := create_sockaddr (addr_ (self m)) (dst_port_ (self m)) in
  ∃ evs r,
    run = (Machine (connected r (self m)) (live m) (fresh m)
             (log m ++ socket_init (socket_init_result c) :: evs), Ret r)
    ∧ ((∃ e, e ∈ evs ∧ bind_event e = true) ↔ socket_init_result c = RTP_OK)
    ∧ (socket_set_sockaddr dest ∈ evs ↔ r = RTP_OK)
    ∧ (r = RTP_OK → addr_out_ (self (after run)) = Some dest)
    ∧ (r ≠ RTP_OK → addr_out_ (self (after run)) = addr_out_ (self m))
    ∧ (laddr_ (self m) ≠ "" →
         r = RTP_OK ∨ r = socket_init_result c ∨ r = RTP_BIND_ERROR)
    ∧ (laddr_ (self m) = "" →
         r = RTP_OK ∨ r = socket_init_result c ∨ r = socket_bind_result c).
Proof.
  intros run dest. subst run dest.
  destruct (decide (socket_init_result c = RTP_OK)) as [Hs|Hs].
  - assert (∀ e, e ∈ nonblocking_setup B c →
               bind_event e = false ∧ e ≠ socket_set_sockaddr
                 (create_sockaddr (addr_ (self m)) (dst_port_ (self m)))) as Hnb.
    { intros e He. apply nonblocking_setup_only_ioctl in He as [-> _]. done. }
    destruct (decide (laddr_ (self m) ≠ "")) as [Hl|Hl].
    + rewrite init_connection_local by done. rewrite Hs.
      case_decide as Hb.
      * eexists _, RTP_BIND_ERROR. rewrite connected_failed by done.
        split; [reflexivity|]. simpl.
        repeat split; try done; try (intros; by eauto); try congruence.
        -- intros _. eexists. split; [apply elem_of_app; right; constructor|done].
        -- intros He. in_log He; try done;
             first [ by apply Hnb in He as [_ ?]
                   | by apply bind_failure_report_only in He as [[=] _] ].
      * eexists _, RTP_OK. split; [reflexivity|]. simpl.
        repeat split; try done; try (intros; by eauto); try congruence.
        -- intros _. eexists. split; [apply elem_of_app; right; constructor|done].
        -- intros _. apply elem_of_app. right.
           apply list_elem_of_further, list_elem_of_here.
    + apply dec_stable in Hl. rewrite init_connection_wildcard by done. rewrite Hs.
      case_decide as Hb.
      * eexists _, (socket_bind_result c). rewrite connected_failed by done.
        split; [reflexivity|]. simpl.
        repeat split; try done; try (intros; by eauto); try congruence.
        -- intros _. eexists. split; [apply elem_of_app; right; constructor|done].
        -- intros He. in_log He; try done. by apply Hnb in He as [_ ?].
      * rewrite Hb.
        eexists _, RTP_OK. split; [reflexivity|]. simpl.
        repeat split; try done; try (intros; by eauto); try congruence.
        -- intros _. eexists. split; [apply elem_of_app; right; constructor|done].
        -- intros _. apply elem_of_app. right.
           apply list_elem_of_further, list_elem_of_here.
  - rewrite init_connection_socket_failure by done.
    exists [], (socket_init_result c). rewrite connected_failed by done. simpl.
    repeat split; try done; try (intros; by eauto).
    + intros (e & He & _). in_log He.
    + intros He. in_log He.
Qed.

(** ** What the bootstraps construct *)

(** [init_connection_frame], with the destination among the events of a
    successful establishment. *)
Lemma init_connection_frame_dest c m :
  ∃ evs r,
    init_connection B c m
    = (Machine (connected r (self m)) (live m) (fresh m) (log m ++ evs), Ret r)
    ∧ Forall (λ e, connection_event e = true) evs
    ∧ (r = RTP_OK → Forall (λ e, transport_event e = true) evs)
    ∧ (r = RTP_OK →
       socket_set_sockaddr (create_sockaddr (addr_ (self m)) (dst_port_ (self m)))
       ∈ evs).
Proof.
  destruct (init_connection B c m) as [m' o] eqn:Hrun. revert Hrun.
  unfold init_connection, connected. unfold_ops.
  exec; intros [= <- <-];
    match goal with |- ∃ _ r, (_, Ret ?x) = _ ∧ _ => eexists _, x end;
    repeat case_decide; try congruence;
    (split; [reflexivity|]); (split; [repeat constructor|]);
    (split; [intros; try congruence; repeat constructor|]);
    intros; try congruence.
  all: repeat first [apply list_elem_of_here | apply list_elem_of_further].
Qed.

Lemma connection_not_secure evs :
  Forall (λ e, connection_event e = true) evs →
  Forall (λ e, secure_event e = false) evs.
Proof. intros H. eapply Forall_impl; [exact H|]. by intros []. Qed.

(** X8: a plain bootstrap that returns [RTP_OK] has, after the socket
    calls of connection establishment, made exactly five calls: it
    constructed the RTP context for the payload format, constructed the
    sender and then the receiver, both with the configuration and format
    the orchestrator held when [init] was called and with the RTP context
    now in [rtp_], then initialised the sender and started the receiver.
    Sender and receiver are two different objects, no SRTP context was
    created or attached, and the configuration is as before. *)
Theorem plain_bootstrap_wiring (c : collaborators) (m m1 : machine) :
  init B c m = (m1, Ret RTP_OK) →
  ∃ evs s r,
    Forall (λ e, transport_event e = true) evs
    ∧ log m1
      = log m ++ evs ++
        [new_rtp (fmt_ (self m)) (rtp_ (self m1));
         new_sender (obj s) (ctx_config_ (self m)) (fmt_ (self m)) (rtp_ (self m1));
         new_receiver (obj r) (ctx_config_ (self m)) (fmt_ (self m)) (rtp_ (self m1));
         sender_init s; receiver_start r]
    ∧ sender_ (self m1) = obj s ∧ receiver_ (self m1) = obj r ∧ s ≠ r
    ∧ s ∈ live m1 ∧ r ∈ live m1
    ∧ srtp_ (self m1) = srtp_ (self m)
    ∧ Forall (λ e, secure_event e = false) (drop (length (log m)) (log m1))
    ∧ ctx_config_ (self m1) = ctx_config_ (self m)
    ∧ addr_out_ (self m1)
      = Some (create_sockaddr (addr_ (self m)) (dst_port_ (self m))).
Proof.
  destruct (init_connection_frame c m) as (evs0 & r0 & E & Hev & Htr).
  pose proof (connection_not_secure _ Hev) as Hns.
  unfold init. unfold bind at 1. rewrite E. clear E.
  destruct (decide (r0 = RTP_OK)) as [->|Hr];
    [rewrite connected_ok | rewrite connected_failed by done].
  all: unfold_ops.
  all: exec; intros [= <-]; simpl.
  all: eexists evs0, _, _; (split; [by apply Htr|]); (split; [reflexivity|]).
  all: rewrite drop_app_length.
  all: repeat split; try done; try lia.
  all: try (repeat first [apply list_elem_of_here | apply list_elem_of_further]).
  all: apply Forall_app; split; [done|by repeat constructor].
Qed.

(** X9: the ZRTP handshake, whenever [init(zrtp)] performs it and whatever
    it answers, is run on the caller's ZRTP object with the SSRC of the RTP
    context just constructed (now in [rtp_] and live), the raw handle of
    the orchestrator's own socket and the destination that connection
    establishment has just stored and handed to that socket.  A secure
    bootstrap that returns [RTP_OK] has made, after the socket calls,
    exactly these calls in this order: RTP context, handshake, SRTP
    context, SRTP initialisation from that RTP context and that ZRTP
    object, attachment of that SRTP context to the socket, sender,
    receiver, sender initialisation, receiver start. *)
Theorem secure_bootstrap_steps (zrtp : ptr) (c : collaborators) (m : machine) :
  let run := init_zrtp B zrtp c m in
  let dest := create_sockaddr (addr_ (self m)) (dst_port_ (self m)) in
  let fmt := fmt_ (self m) in
  let conf := ctx_config_ (self m) in
  ∃ evs,
    log (after run) = log m ++ evs ∧
    (∀ z ssrc raw d e,
       zrtp_init z ssrc raw d e ∈ evs →
       zrtp = obj z ∧ ssrc = rtp_ssrc c ∧ raw = raw_socket c ∧ d = Some dest
       ∧ e = zrtp_init_result c
       ∧ socket_set_sockaddr dest ∈ evs
       ∧ ∃ t, rtp_ (self (after run)) = obj t ∧ t ∈ live (after run)
              ∧ new_rtp fmt (obj t) ∈ evs) ∧
    (result run = Ret RTP_OK →
       ∃ conn z t k s r,
         Forall (λ e, transport_event e = true) conn
         ∧ zrtp = obj z
         ∧ evs = conn ++
             [new_rtp fmt (obj t);
              zrtp_init z (rtp_ssrc c) (raw_socket c) (Some dest) RTP_OK;
              new_srtp (obj k);
              srtp_init_zrtp k (obj t) (obj z) RTP_OK;
              socket_set_srtp (obj k);
              new_sender (obj s) conf fmt (obj t);
              new_receiver (obj r) conf fmt (obj t);
              sender_init s; receiver_start r]
         ∧ rtp_ (self (after run)) = obj t ∧ srtp_ (self (after run)) = obj k
         ∧ sender_ (self (after run)) = obj s
         ∧ receiver_ (self (after run)) = obj r
         ∧ NoDup [t; k; s; r]).
Proof.
  intros run dest fmt conf. subst run dest fmt conf.
  destruct (init_connection_frame_dest c m) as (evs0 & r0 & E & Hev & Htr & Hdest).
  rewrite Forall_forall in Hev.
  destruct (init_zrtp B zrtp c m) as [m' o] eqn:Hrun. revert Hrun.
  unfold init_zrtp. unfold bind at 1. rewrite E. clear E.
  destruct (decide (r0 = RTP_OK)) as [->|Hr];
    [rewrite connected_ok; specialize (Hdest eq_refl); specialize (Htr eq_refl)
    | rewrite connected_failed by done].
  all: unfold_ops.
  all: exec; intros [= <- <-]; simpl; rewrite <- ?app_assoc; simpl.
  all: eexists; (split; [reflexivity|]).
  all: split; [intros z ssrc raw d e Hin | intros Hok].
  all: try discriminate Hok; try congruence.
  all: try (exfalso; in_log Hin; try discriminate Hin;
            apply Hev in Hin; discriminate Hin).
  all: try (in_log Hin; try discriminate Hin;
            [apply Hev in Hin; discriminate Hin|];
            injection Hin as <- <- <- <- <-;
            repeat split; try done;
            [apply elem_of_app; by left|];
            eexists; split; [reflexivity|]; split;
            [repeat first [apply list_elem_of_here | apply list_elem_of_further]
            |apply elem_of_app; right; apply list_elem_of_here]).
  repeat match goal with
         | H : zrtp_init_result c = RTP_OK |- _ => rewrite H; clear H
         | H : srtp_init_zrtp_result c = RTP_OK |- _ => rewrite H; clear H
         end.
  eexists evs0, _, _, _, _, _. split; [exact Htr|].
  split; [reflexivity|]. split; [reflexivity|].
  repeat split.
  repeat (apply NoDup_cons_2;
          [let X := fresh in intros X; in_log X; lia|]).
  apply NoDup_nil_2.
Qed.

(** X10: the other ways out of [init(zrtp)].  When the SRTP context
    refuses the negotiated keys ([init_zrtp] fails), the call returns that
    error, and the context, though allocated and kept in [srtp_], is not
    attached to the socket, and neither sender nor receiver is constructed
    or started.  The two tests for a null result of [new] never fire: a
    failed allocation leaves the call by [std::bad_alloc], that of the RTP
    context with the connection established and nothing else done, that
    of the SRTP context after the handshake, with [srtp_] as it was and
    the RTP context left allocated in [rtp_].  So the call returns nothing
    but [RTP_OK], [RTP_GENERIC_ERROR], the error of the handshake and the
    error of the SRTP initialisation, and [RTP_MEMORY_ERROR] only when one
    of these two collaborators answered it. *)
Theorem secure_bootstrap_failures (zrtp : ptr) (c : collaborators) (m : machine) :
  let run := init_zrtp B zrtp c m in
  ∃ evs,
    log (after run) = log m ++ evs ∧
    (∀ k rtp z e,
       srtp_init_zrtp k rtp z e ∈ evs → e ≠ RTP_OK →
       result run = Ret e
       ∧ (∀ s, socket_set_srtp s ∉ evs)
       ∧ Forall (λ e, sender_receiver_event e = false) evs
       ∧ srtp_ (self (after run)) = obj k ∧ k ∈ live (after run)
       ∧ rtp = rtp_ (self (after run)) ∧ z = zrtp) ∧
    (∀ r, result run = Ret r →
       r = RTP_OK ∨ r = RTP_GENERIC_ERROR
       ∨ r = zrtp_init_result c ∨ r = srtp_init_zrtp_result c) ∧
    (result run = Ret RTP_MEMORY_ERROR →
       zrtp_init_result c = RTP_MEMORY_ERROR
       ∨ srtp_init_zrtp_result c = RTP_MEMORY_ERROR) ∧
    (result (init_connection B c m) = Ret RTP_OK → alloc_rtp c = false →
       run = (after (init_connection B c m), Bad_alloc)) ∧
    (∀ z ssrc raw d,
       zrtp_init z ssrc raw d RTP_OK ∈ evs → alloc_srtp c = false →
       result run = Bad_alloc
       ∧ srtp_ (self (after run)) = srtp_ (self m)
       ∧ valid (after run) (rtp_ (self (after run)))
       ∧ (∀ p, new_srtp p ∉ evs)
       ∧ (∀ s, socket_set_srtp s ∉ evs)
       ∧ Forall (λ e, sender_receiver_event e = false) evs).
Proof.
  intros run. subst run.
  destruct (init_connection_frame c m) as (evs0 & r0 & E & Hev & Htr).
  pose proof (connection_only_no_sender_receiver _ Hev) as Hsr.
  pose proof (connection_not_secure _ Hev) as Hns.
  rewrite Forall_forall in Hev.
  destruct (init_zrtp B zrtp c m) as [m' o] eqn:Hrun. revert Hrun.
  unfold init_zrtp. unfold bind at 1. rewrite E. clear E.
  destruct (decide (r0 = RTP_OK)) as [->|Hr];
    [rewrite connected_ok | rewrite connected_failed by done].
  all: unfold_ops.
  all: exec; intros [= <- <-]; simpl; rewrite <- ?app_assoc; simpl.
  all: eexists; (split; [reflexivity|]).
  all: split; [intros k rtp z e Hin Hne
              |split; [intros r [= <-]; auto 6
                      |split; [first [done | intros [= E]; rewrite E; auto]
                              |split; [first [done|congruence]
                                      |intros z ssrc raw d Hin Hsrtp]]]].
  all: try (exfalso; in_log Hin; try discriminate Hin;
            first [apply Hev in Hin; discriminate Hin | congruence]).
  - in_log Hin; try discriminate Hin; [apply Hev in Hin; discriminate Hin|].
    injection Hin as -> -> -> ->.
    split; [done|]. split.
    { intros s X. in_log X; try discriminate X. apply Hev in X. discriminate X. }
    split; [apply Forall_app_2; [done|by repeat constructor]|].
    split; [done|]. split; [apply list_elem_of_here|done].
  - split; [done|]. split; [done|]. split.
    { eexists. split; [reflexivity|]. apply list_elem_of_here. }
    split.
    { intros p X. in_log X; try discriminate X. apply Hev in X. discriminate X. }
    split.
    { intros s X. in_log X; try discriminate X. apply Hev in X. discriminate X. }
    apply Forall_app_2; [done|by repeat constructor].
Qed.

(** X11: what the two configuration setters accepted before a plain
    bootstrap is what sender and receiver are constructed with: the
    configuration passed to both has the flag set and holds the value
    under its key. *)
Theorem configuration_reaches_sender_and_receiver
    (flag key value : Z) (c : collaborators) (m m1 : machine) :
  0 <= flag < RCE_LAST B → 0 <= key < RCC_LAST B → 0 <= value →
  length (ctx_values (ctx_config_ (self m))) = Z.to_nat (RCC_LAST B) →
  init B c (after (configure_ctx_value B key value (after (configure_ctx B flag m))))
  = (m1, Ret RTP_OK) →
  ∃ s r conf fmt rtp,
    new_sender (obj s) conf fmt rtp ∈ log m1
    ∧ new_receiver (obj r) conf fmt rtp ∈ log m1
    ∧ sender_ (self m1) = obj s ∧ receiver_ (self m1) = obj r
    ∧ flags conf = Z.lor (flags (ctx_config_ (self m))) flag
    ∧ ctx_values conf !! Z.to_nat key = Some value
    ∧ conf = ctx_config_ (self m1).
Proof.
  intros Hflag Hkey Hvalue Hlen.
  rewrite (configure_ctx_accepts flag m Hflag). simpl.
  rewrite configure_ctx_value_accepts by done. simpl.
  assert (<[Z.to_nat key := value]> (ctx_values (ctx_config_ (self m)))
            !! Z.to_nat key = Some value) as Hlook
    by (apply list_lookup_insert_eq; rewrite Hlen; lia).
  clear Hflag Hkey Hvalue Hlen.
  match goal with |- init B c ?m0 = _ → _ =>
    destruct (init_connection_frame c m0) as (evs0 & r0 & E & _)
  end.
  unfold init. unfold bind at 1. rewrite E. clear E.
  destruct (decide (r0 = RTP_OK)) as [->|Hr];
    [rewrite connected_ok | rewrite connected_failed by done].
  all: unfold_ops.
  all: exec; intros [= <-]; simpl.
  all: eexists _, _, _, _, _.
  all: split; [apply elem_of_app; right; apply elem_of_app; right;
               apply list_elem_of_further, list_elem_of_here|].
  all: split; [apply elem_of_app; right; apply elem_of_app; right;
               do 2 apply list_elem_of_further; apply list_elem_of_here|].
  all: repeat split; simpl.
  all: exact Hlook.
Qed.

(** ** Bootstrapping again *)

(** Membership of an address that is written out in the list. *)
Ltac find_live :=
  first [apply list_elem_of_here | apply list_elem_of_further; find_live].

(** Runs [x m = (m', o) → _] in evaluation order, releasing as it goes
    and reading a member through the equation [E]. *)
Ltac run_heap H E :=
  repeat (simpl; try rewrite E; heap_simpl H;
          lazymatch goal with
          | |- ?L = _ → _ =>
              let s := stuck L in
              lazymatch s with
              | (_, _) => fail
              | bool_decide (?a ∈ ?l) =>
                  rewrite (bool_decide_eq_true_2 (a ∈ l)) by find_live
              | _ => destruct s eqn:?
              end
          end).

(** X13: nothing prevents a second bootstrap after a successful one, and
    the second does not release what the first constructed: [rtp_],
    [sender_] and [receiver_] are overwritten with new objects, the
    destructor then releases the new ones only, and the sender, the
    receiver and the RTP context of the first bootstrap stay allocated,
    the heap after teardown being the heap as the first bootstrap left
    it. *)
Theorem repeated_bootstrap_leaks (c1 c2 : collaborators) (m m1 m2 : machine) :
  heap_ok m → srtp_ (self m) = nullptr →
  init B c1 m = (m1, Ret RTP_OK) → init B c2 m1 = (m2, Ret RTP_OK) →
  ∃ s r s' r',
    sender_ (self m1) = obj s ∧ receiver_ (self m1) = obj r
    ∧ sender_ (self m2) = obj s' ∧ receiver_ (self m2) = obj r'
    ∧ NoDup [s; r; s'; r']
    ∧ result (destructor m2) = Ret tt
    ∧ live (after (destructor m2)) = live m1
    ∧ s ∈ live (after (destructor m2)) ∧ r ∈ live (after (destructor m2))
    ∧ live m1 ≠ live m.
Proof.
  intros Hheap Hsrtp.
  destruct (init_connection_frame c1 m) as (evs1 & r1 & E1 & _).
  unfold init at 1. unfold bind at 1. rewrite E1. clear E1.
  destruct (decide (r1 = RTP_OK)) as [->|Hr1];
    [rewrite connected_ok | rewrite connected_failed by done].
  all: unfold_ops.
  all: exec; intros [= <-].
  all: match goal with |- init _ ?C ?M = _ → _ =>
         destruct (init_connection_frame C M) as (evs2 & r2 & E2 & _)
       end.
  all: unfold init; unfold bind at 1; rewrite E2; clear E2.
  all: destruct (decide (r2 = RTP_OK)) as [->|Hr2];
         [rewrite connected_ok | rewrite connected_failed by done].
  all: unfold_ops.
  all: exec; intros [= <-]; simpl.
  all: eexists _, _, _, _; do 4 (split; [reflexivity|]).
  all: split; [repeat (apply NoDup_cons_2;
                       [let X := fresh in intros X; in_log X; lia|]);
               apply NoDup_nil_2|].
  all: match goal with |- context [destructor ?M] =>
         destruct (destructor M) as [m3 o3] eqn:Hd; revert Hd
       end.
  all: unfold destructor; unfold_ops.
  all: run_heap Hheap Hsrtp; simpl; rewrite ?Hsrtp; simpl; intros [= <- <-]; simpl.
  all: split; [done|].
  all: split; [done|].
  all: split; [find_live|].
  all: split; [find_live|].
  all: intros X; apply (f_equal length) in X; simpl in X; lia.
Qed.

(** X14: [init(zrtp)] does not test its argument.  With a pointer that is
    not an object, the null pointer included, it never returns [RTP_OK]
    and never reaches the handshake, the SRTP context, the sender or the
    receiver: it returns [RTP_GENERIC_ERROR] or is left by
    [std::bad_alloc] as usual, and once the connection is established and
    the RTP context allocated it dereferences the pointer, with the socket
    bound and the RTP context left allocated in [rtp_]. *)
Theorem secure_bootstrap_needs_zrtp (zrtp : ptr) (c : collaborators) (m : machine) :
  (∀ a, zrtp ≠ obj a) →
  let run := init_zrtp B zrtp c m in
  ∃ evs,
    log (after run) = log m ++ evs
    ∧ Forall (λ e, secure_event e = false) evs
    ∧ Forall (λ e, sender_receiver_event e = false) evs
    ∧ (result run = Ret RTP_GENERIC_ERROR ∨ result run = Bad_alloc
       ∨ result run = Fault)
    ∧ (result run = Fault ↔
         result (init_connection B c m) = Ret RTP_OK ∧ alloc_rtp c = true)
    ∧ (result run = Fault →
         rtp_ (self (after run)) = obj (fresh m)
         ∧ live (after run) = fresh m :: live m
         ∧ addr_out_ (self (after run))
           = Some (create_sockaddr (addr_ (self m)) (dst_port_ (self m)))).
Proof.
  intros Hz run. subst run.
  assert (zrtp = nullptr ∨ zrtp = indeterminate) as Hcase.
  { destruct zrtp as [| |a]; [by left|by right|]. by destruct (Hz a). }
  clear Hz.
  destruct Hcase as [-> | ->].
  all: destruct (init_connection_frame c m) as (evs0 & r0 & E & Hev & Htr).
  all: pose proof (connection_only_no_sender_receiver _ Hev) as Hsr.
  all: pose proof (connection_not_secure _ Hev) as Hns.
  all: match goal with |- context [init_zrtp _ ?z _ _] =>
         destruct (init_zrtp B z c m) as [m' o] eqn:Hrun; revert Hrun
       end.
  all: unfold init_zrtp; unfold bind at 1; rewrite E; simpl.
  all: destruct (decide (r0 = RTP_OK)) as [->|Hr];
         [rewrite connected_ok | rewrite connected_failed by done].
  all: unfold_ops.
  all: exec; intros [= <- <-]; simpl; rewrite <- ?app_assoc; simpl.
  all: eexists; (split; [reflexivity|]).
  all: split; [first [done | apply Forall_app_2; [done|by repeat constructor]]|].
  all: split; [first [done | apply Forall_app_2; [done|by repeat constructor]]|].
  all: split; [auto|].
  all: split; [split; [try done; intros [? ?]; congruence
                      |intros [? ?]; congruence]|try done].
Qed.

(** ** What is released, and when *)

Lemma heap_grows_pure {A} (a : A) : heap_grows (pure a).
Proof. by intros m a0. Qed.

Lemma heap_grows_this : heap_grows this.
Proof. by intros m a0. Qed.

Lemma heap_grows_get {A} (g : media_stream → A) : heap_grows (get g).
Proof. by intros m a0. Qed.

Lemma heap_grows_emit e : heap_grows (emit e).
Proof. by intros m a0. Qed.

Lemma heap_grows_modify f : heap_grows (modify f).
Proof. by intros m a0. Qed.

Lemma heap_grows_deref p : heap_grows (deref p).
Proof. intros m a0. unfold deref. destruct p; try done. by destruct (is_live a m). Qed.

Lemma heap_grows_new ok : heap_grows (new ok).
Proof.
  intros m a0 Ha. unfold new. destruct ok; [|done].
  simpl. by apply list_elem_of_further.
Qed.

Lemma heap_grows_bind {A C} (x : M A) (f : A → M C) :
  heap_grows x → (∀ a, heap_grows (f a)) → heap_grows (bind x f).
Proof.
  intros Hx Hf m a0 Ha. rewrite after_bind.
  destruct (result (x m)); [apply Hf| |]; by apply Hx.
Qed.

Ltac grow :=
  repeat first
    [ apply heap_grows_pure | apply heap_grows_this | apply heap_grows_get
    | apply heap_grows_emit | apply heap_grows_deref | apply heap_grows_new
    | apply heap_grows_modify
    | apply heap_grows_bind; [|intros ?]
    | case_decide
    | match goal with |- heap_grows (if ?b then _ else _) => destruct b end ].

Lemma init_connection_heap_grows c : heap_grows (init_connection B c).
Proof. unfold init_connection, set_destination. grow. Qed.

Lemma start_sender_receiver_heap_grows c : heap_grows (start_sender_receiver c).
Proof. unfold start_sender_receiver. grow. Qed.

Lemma init_heap_grows c : heap_grows (init B c).
Proof.
  unfold init. apply heap_grows_bind; [apply init_connection_heap_grows|]. intros r.
  case_decide; [apply heap_grows_pure|].
  repeat (apply heap_grows_bind;
          [first [apply start_sender_receiver_heap_grows | by grow]|]; intros ?).
  apply heap_grows_pure.
Qed.

Lemma init_zrtp_heap_grows zrtp c : heap_grows (init_zrtp B zrtp c).
Proof.
  unfold init_zrtp. apply heap_grows_bind; [apply init_connection_heap_grows|].
  intros r.
  repeat first
    [ apply start_sender_receiver_heap_grows
    | apply heap_grows_pure | apply heap_grows_get | apply heap_grows_emit
    | apply heap_grows_deref | apply heap_grows_new | apply heap_grows_modify
    | apply heap_grows_bind; [|intros ?]
    | case_decide ].
Qed.

Lemma heap_grows_discard {A} (x : M A) : heap_grows x → heap_grows (discard x).
Proof. intros H m a Ha. rewrite after_discard. by apply H. Qed.

Lemma perform_heap_grows k : heap_grows (perform B k).
Proof.
  destruct k; simpl; try apply heap_grows_discard.
  - apply init_heap_grows.
  - apply init_zrtp_heap_grows.
  - unfold push_frame. grow.
  - unfold push_frame_unique. grow.
  - unfold pull_frame. grow.
  - unfold install_receive_hook. grow.
  - unfold install_deallocation_hook. grow.
  - unfold set_media_config. grow.
  - unfold get_media_config. grow.
  - unfold configure_ctx_value. grow.
  - unfold configure_ctx. grow.
  - unfold get_key. grow.
Qed.

Lemma elem_of_release a b l : a ∈ release b l ↔ a ≠ b ∧ a ∈ l.
Proof. unfold release. by rewrite list_elem_of_filter. Qed.

Lemma delete_spares p a m :
  a ∈ live m → p ≠ obj a →
  a ∈ live (after (delete p m))
  ∧ ∃ d, log (after (delete p m)) = log m ++ d ∧ delete_obj a ∉ d.
Proof.
  intros Ha Hp. unfold delete. destruct p as [| |b]; simpl.
  - split; [done|]. exists []. rewrite app_nil_r. split; [done|]. by intros ?%elem_of_nil.
  - split; [done|]. exists []. rewrite app_nil_r. split; [done|]. by intros ?%elem_of_nil.
  - destruct (is_live b m); simpl.
    + split; [apply elem_of_release; split; [congruence|done]|].
      exists [delete_obj b]. split; [done|].
      intros X. in_log X. congruence.
    + split; [done|]. exists []. rewrite app_nil_r. split; [done|].
      by intros ?%elem_of_nil.
Qed.

Lemma delete_never_throws p m : result (delete p m) ≠ Bad_alloc.
Proof. unfold delete, result. destruct p; try done. by destruct (is_live a m). Qed.

(** Closes a run of the destructor that stopped after the events [d]. *)
Ltac stopped d :=
  intros [= <- <-]; simpl; split; [done|]; exists d;
  split; [rewrite ?app_nil_r, <- ?app_assoc; done|];
  let X := fresh in intros X; in_log X; done.

(** X15: the only releases are the four [delete] statements of the
    destructor.  No other member function ever releases an object:
    whatever is live stays live through any sequence of calls.  The
    destructor releases nothing but what [sender_], [receiver_], [rtp_]
    and [srtp_] point to: any other live object, the caller's media
    configuration and ZRTP context included, is live when it ends,
    however it ends. *)
Theorem only_the_destructor_releases (ks : list call) (m : machine) (a : addr) :
  a ∈ live m →
  a ∈ live (after (perform_all B ks m))
  ∧ (sender_ (self m) ≠ obj a → receiver_ (self m) ≠ obj a →
     rtp_ (self m) ≠ obj a → srtp_ (self m) ≠ obj a →
     a ∈ live (after (destructor m))
     ∧ ∃ d, log (after (destructor m)) = log m ++ d ∧ delete_obj a ∉ d).
Proof.
  intros Ha. split.
  - revert m Ha. induction ks as [|k ks IH]; intros m Ha; simpl; [done|].
    rewrite after_bind. destruct (result (perform B k m)).
    + apply IH. by apply perform_heap_grows.
    + by apply perform_heap_grows.
    + by apply perform_heap_grows.
  - intros Hs Hr Ht Hk.
    destruct (destructor m) as [m' o] eqn:Hrun. revert Hrun.
    unfold destructor. unfold get, this, bind, pure, emit, deref, is_live. simpl.
    destruct (sender_ (self m)) as [| |s] eqn:Es; simpl;
      [stopped (@nil event) | stopped (@nil event) |].
    case_bool_decide; simpl; [|stopped (@nil event)].
    destruct (receiver_ (self m)) as [| |r] eqn:Er; simpl;
      [stopped [sender_destroy s] | stopped [sender_destroy s] |].
    case_bool_decide; simpl; [|stopped [sender_destroy s]].
    rewrite ?Es.
    set (m0 := Machine (self m) (live m) (fresh m)
                 ((log m ++ [sender_destroy s]) ++ [receiver_stop r])).
    destruct (delete_spares (obj s) a m0 Ha ltac:(congruence)) as (L1 & d1 & D1 & N1).
    assert (self (after (delete (obj s) m0)) = self m) as S1.
    { unfold delete. by destruct (is_live s m0). }
    destruct (delete (obj s) m0) as [m1 [[]| |]] eqn:E1; simpl in *;
      [|exfalso; exact (delete_never_throws (obj s) m0 (f_equal result E1))|intros [= <- <-]; split; [done|]; eexists; rewrite D1, <- !app_assoc;
        split; [reflexivity|]; intros X; in_log X; done].
    rewrite S1, Er.
    destruct (delete_spares (obj r) a m1 L1 ltac:(congruence)) as (L2 & d2 & D2 & N2).
    assert (self (after (delete (obj r) m1)) = self m) as S2.
    { rewrite <- S1. unfold delete. by destruct (is_live r m1). }
    destruct (delete (obj r) m1) as [m2 [[]| |]] eqn:E2; simpl in *;
      [|exfalso; exact (delete_never_throws (obj r) m1 (f_equal result E2))|intros [= <- <-]; split; [done|]; eexists; rewrite D2, D1, <- !app_assoc;
        split; [reflexivity|]; intros X; in_log X; done].
    rewrite S2.
    destruct (delete_spares (rtp_ (self m)) a m2 L2 Ht) as (L3 & d3 & D3 & N3).
    assert (self (after (delete (rtp_ (self m)) m2)) = self m) as S3.
    { rewrite <- S2 at 2. unfold delete. destruct (rtp_ (self m)); try done.
      by destruct (is_live a0 m2). }
    destruct (delete (rtp_ (self m)) m2) as [m3 [[]| |]] eqn:E3; simpl in *;
      [|exfalso; exact (delete_never_throws (rtp_ (self m)) m2 (f_equal result E3))|intros [= <- <-]; split; [done|]; eexists;
        rewrite D3, D2, D1, <- !app_assoc;
        split; [reflexivity|]; intros X; in_log X; done].
    rewrite S3.
    destruct (delete_spares (srtp_ (self m)) a m3 L3 Hk) as (L4 & d4 & D4 & N4).
    intros E4. rewrite E4 in *. simpl in *. split; [done|].
    eexists. rewrite D4, D3, D2, D1, <- !app_assoc.
    split; [reflexivity|]. intros X. in_log X; done.
Qed.

End Properties.

(** * Concrete runs *)

Lemma plain_machine_heap_ok : heap_ok plain_machine.
Proof. intros a Ha. simpl in *. in_log Ha. subst. lia. Defined.

Lemma bound_machine_heap_ok : heap_ok bound_machine.
Proof. intros a Ha. simpl in *. in_log Ha. subst. lia. Defined.

(** The secure bootstrap of [plain_machine]: once with a failing
    handshake, once with every collaborator succeeding. *)
Lemma secure_bootstrap_order_witness :
  let failed := init_zrtp sample_build (obj 0) answers_handshake_fails plain_machine in
  let booted := init_zrtp sample_build (obj 0) answers_ok plain_machine in
  (result failed = Ret (RTP_ERROR 7)
   ∧ Forall (λ ev, sender_receiver_event ev = false) (log (after failed))
   ∧ sender_ (self (after failed)) = indeterminate
   ∧ receiver_ (self (after failed)) = indeterminate)
  ∧ ∃ pre s snd rcv conf fmt rtp,
      log (after booted)
      = pre ++ [socket_set_srtp (obj s); new_sender (obj snd) conf fmt rtp;
                new_receiver (obj rcv) conf fmt rtp;
                sender_init snd; receiver_start rcv]
      ∧ Forall (λ ev, sender_receiver_event ev = false) pre.
Proof.
  intros failed booted. split.
  - destruct (secure_bootstrap_order sample_build (obj 0)
                answers_handshake_fails plain_machine)
      as (evs & Hlog & Hfail & _).
    vm_compute in Hlog. subst evs.
    destruct (Hfail 0 2864434397 3
                (Some (Sockaddr "203.0.113.5" 5004)) (RTP_ERROR 7))
      as (Hres & Hnone & _ & Hs & Hr & _).
    + do 4 apply list_elem_of_further. apply list_elem_of_here.
    + discriminate.
    + vm_compute in Hres, Hs, Hr. vm_compute.
      repeat split; try assumption.
  - destruct (secure_bootstrap_order sample_build (obj 0) answers_ok plain_machine)
      as (evs & Hlog & _ & Hok).
    vm_compute in Hlog. subst evs.
    assert (result (init_zrtp sample_build (obj 0) answers_ok plain_machine)
            = Ret RTP_OK) as Hres by (vm_compute; reflexivity).
    destruct (Hok Hres) as (pre & s & snd & rcv & conf & fmt & rtp & E & Hpre & _).
    exists pre, s, snd, rcv, conf, fmt, rtp.
    split; [|assumption]. rewrite <- E. vm_compute. reflexivity.
Defined.

(** The teardown of [plain_machine] after a plain and after a secure
    bootstrap. *)
Lemma teardown_after_bootstrap_witness :
  let plain := after (init sample_build answers_ok plain_machine) in
  let secure := after (init_zrtp sample_build (obj 0) answers_ok plain_machine) in
  (result (destructor plain) = Ret tt ∧ live (after (destructor plain)) = [0])
  ∧ (result (destructor secure) = Ret tt ∧ live (after (destructor secure)) = [0])
  ∧ result (destructor plain_machine) = Fault.
Proof.
  intros plain secure.
  assert (init sample_build answers_ok plain_machine = (plain, Ret RTP_OK))
    as Hplain by (vm_compute; reflexivity).
  assert (init_zrtp sample_build (obj 0) answers_ok plain_machine
          = (secure, Ret RTP_OK))
    as Hsecure by (vm_compute; reflexivity).
  assert (srtp_ (self plain_machine) = nullptr) as Hnull by reflexivity.
  destruct (teardown_after_bootstrap sample_build answers_ok plain_machine plain
              plain_machine_heap_ok) as [H1 _].
  destruct (teardown_after_bootstrap sample_build answers_ok plain_machine secure
              plain_machine_heap_ok) as (_ & H2 & H3).
  assert (¬ valid plain_machine (sender_ (self plain_machine))) as Hn
    by (intros (a & Ha & _); discriminate Ha).
  split; [|split].
  - destruct (H1 Hnull Hplain) as (s & r & _ & _ & _ & E & _).
    rewrite E. split; reflexivity.
  - destruct (H2 (obj 0) Hsecure) as (s & r & t & k & _ & _ & _ & _ & E & _).
    rewrite E. split; reflexivity.
  - rewrite (H3 plain_machine Hn). reflexivity.
Defined.

(** Frame I/O on [plain_machine] after its plain bootstrap, after a
    bootstrap of [bound_machine] that failed at [::bind], and before any
    bootstrap. *)
Lemma frame_io_forwarding_witness :
  let booted := after (init sample_build answers_ok plain_machine) in
  result (push_frame 4096 100 0 RTP_OK booted) = Ret RTP_OK
  ∧ result (push_frame_unique 4096 100 0 RTP_OK booted) = Ret RTP_OK
  ∧ result (pull_frame nullptr booted) = Ret nullptr
  ∧ valid booted (sender_ (self booted))
  ∧ sender_ (self (after (init sample_build answers_bind_fails bound_machine)))
    = sender_ (self bound_machine)
  ∧ result (push_frame 4096 100 0 RTP_OK plain_machine) = Fault
  ∧ result (pull_frame nullptr plain_machine) = Fault.
Proof.
  intros booted.
  destruct (frame_io_forwarding sample_build booted)
    as (Hpush & Hpull & Hboot & _).
  destruct (frame_io_forwarding sample_build
              (after (init sample_build answers_bind_fails bound_machine)))
    as (_ & _ & _ & Hfailed & _).
  destruct (frame_io_forwarding sample_build plain_machine)
    as (_ & _ & _ & _ & Hnopush & Hnopull).
  assert (sender_ (self booted) = obj 2) as Hs by (vm_compute; reflexivity).
  assert (receiver_ (self booted) = obj 3) as Hr by (vm_compute; reflexivity).
  assert (live booted = [3; 2; 1; 0]) as Hl by (vm_compute; reflexivity).
  assert (2 ∈ live booted) as H2
    by (rewrite Hl; apply list_elem_of_further, list_elem_of_here).
  assert (3 ∈ live booted) as H3 by (rewrite Hl; apply list_elem_of_here).
  destruct (Hpush 2 4096 100 0 RTP_OK Hs H2) as [E1 E2].
  pose proof (Hpull 3 nullptr Hr H3) as E3.
  assert (init sample_build answers_ok plain_machine = (booted, Ret RTP_OK))
    as Hinit by (vm_compute; reflexivity).
  destruct (Hboot answers_ok nullptr plain_machine (or_introl Hinit)) as [Hv _].
  assert (result (init_connection sample_build answers_bind_fails bound_machine)
          = Ret RTP_BIND_ERROR) as Hconn by (vm_compute; reflexivity).
  destruct (Hfailed answers_bind_fails nullptr bound_machine RTP_BIND_ERROR
              Hconn ltac:(discriminate) (or_introl eq_refl)) as (Hsame & _).
  assert (¬ valid plain_machine (sender_ (self plain_machine))) as Hn1
    by (intros (a & Ha & _); discriminate Ha).
  assert (¬ valid plain_machine (receiver_ (self plain_machine))) as Hn2
    by (intros (a & Ha & _); discriminate Ha).
  destruct (Hnopush 4096 100 0 RTP_OK Hn1) as [E4 _].
  pose proof (Hnopull nullptr Hn2) as E5.
  rewrite E1, E2, E3, E4, E5. repeat split; assumption.
Defined.

(** Plain bootstrap of [bound_machine] when [::bind] fails, of
    [plain_machine] when every collaborator succeeds, and of
    [plain_machine] when there is no memory for the RTP context. *)
Lemma plain_bootstrap_outcomes_witness :
  let failed := init sample_build answers_bind_fails bound_machine in
  let starved := init sample_build answers_no_rtp plain_machine in
  result failed = Ret RTP_GENERIC_ERROR
  ∧ self (after failed) = self bound_machine
  ∧ live (after failed) = live bound_machine
  ∧ result (init sample_build answers_ok plain_machine) = Ret RTP_OK
  ∧ result starved = Bad_alloc
  ∧ result starved ≠ Ret RTP_MEMORY_ERROR
  ∧ rtp_ (self (after starved)) = indeterminate
  ∧ live (after starved) = [0].
Proof.
  intros failed starved.
  destruct (plain_bootstrap_outcomes sample_build answers_bind_fails bound_machine)
    as (Hiff & Hframe & _).
  destruct (plain_bootstrap_outcomes sample_build answers_ok plain_machine)
    as (_ & _ & _ & Hok & _).
  destruct (plain_bootstrap_outcomes sample_build answers_no_rtp plain_machine)
    as (_ & _ & Hvalues & _ & Hthrow & _).
  assert (result (init_connection sample_build answers_bind_fails bound_machine)
          = Ret RTP_BIND_ERROR) as Hconn by (vm_compute; reflexivity).
  assert (result failed = Ret RTP_GENERIC_ERROR) as Hg.
  { apply Hiff. exists RTP_BIND_ERROR. split; [exact Hconn|discriminate]. }
  destruct (Hframe Hg) as (Hs & Hl & _).
  assert (result (init_connection sample_build answers_ok plain_machine)
          = Ret RTP_OK) as Hconn' by (vm_compute; reflexivity).
  assert (result (init_connection sample_build answers_no_rtp plain_machine)
          = Ret RTP_OK) as Hconn'' by (vm_compute; reflexivity).
  assert (alloc_rtp answers_no_rtp = false) as Hno by reflexivity.
  pose proof (Hthrow Hconn'' Hno) as Hrun.
  split; [exact Hg|]. split; [exact Hs|]. split; [exact Hl|].
  split; [apply Hok; [exact Hconn'|reflexivity..]|].
  split; [unfold starved; rewrite Hrun; reflexivity|].
  split.
  { intros Hmem. destruct (Hvalues RTP_MEMORY_ERROR Hmem) as [H|H]; discriminate H. }
  unfold starved. rewrite Hrun. split; vm_compute; reflexivity.
Defined.

(** Connection establishment of [bound_machine] and [plain_machine], and
    a bootstrap that stops at the failed [::bind]. *)
Lemma connection_binding_witness :
  let bound := log (after (init_connection sample_build answers_ok bound_machine)) in
  let plain := log (after (init_connection sample_build answers_ok plain_machine)) in
  sys_bind 3 (Sockaddr "192.0.2.10" 5004) 0 ∈ bound
  ∧ (∀ e, e ∈ bound → bind_event e = true →
       e = sys_bind 3 (Sockaddr "192.0.2.10" 5004) 0)
  ∧ socket_bind_any 5004 RTP_OK ∈ plain
  ∧ (∀ e, e ∈ plain → bind_event e = true → e = socket_bind_any 5004 RTP_OK)
  ∧ init sample_build answers_bind_fails bound_machine
    = (after (init_connection sample_build answers_bind_fails bound_machine),
       Ret RTP_GENERIC_ERROR)
  ∧ self (after (init_connection sample_build answers_bind_fails bound_machine))
    = self bound_machine.
Proof.
  intros bound plain.
  destruct (connection_binding sample_build answers_ok) as (Hlocal & Hany & _).
  destruct (connection_binding sample_build answers_bind_fails) as (_ & _ & Hfail).
  destruct (Hlocal 81985529216486895 "203.0.113.5" "192.0.2.10" 5004 5004 96 0 [0] 1
              ltac:(discriminate)) as (Honly & Hin & _).
  destruct (Hany 81985529216486895 "203.0.113.5" 5004 5004 96 0 [0] 1)
    as (Honly' & Hin' & _).
  assert (result (init_connection sample_build answers_bind_fails bound_machine)
          = Ret RTP_BIND_ERROR) as Hconn by (vm_compute; reflexivity).
  destruct (Hfail bound_machine RTP_BIND_ERROR Hconn ltac:(discriminate))
    as (Hself & _ & _ & _ & Hinit & _).
  split; [exact (Hin eq_refl)|]. split; [exact Honly|].
  split; [exact (Hin' eq_refl)|]. split; [exact Honly'|].
  split; [exact Hinit|exact Hself].
Defined.

(** [configure_ctx(int)] on [plain_machine]: a flag out of range, a flag in
    range, the same flag again. *)
Lemma configure_ctx_flag_spec_witness :
  let once := after (configure_ctx sample_build 4 plain_machine) in
  configure_ctx sample_build 256 plain_machine = (plain_machine, Ret RTP_INVALID_VALUE)
  ∧ configure_ctx sample_build (-1) plain_machine = (plain_machine, Ret RTP_INVALID_VALUE)
  ∧ result (configure_ctx sample_build 4 plain_machine) = Ret RTP_OK
  ∧ flags (ctx_config_ (self once)) = Z.lor 0 4
  ∧ configure_ctx sample_build 4 once = (once, Ret RTP_OK).
Proof.
  intros once.
  destruct (configure_ctx_flag_spec sample_build 256 plain_machine) as [Hhigh _].
  destruct (configure_ctx_flag_spec sample_build (-1) plain_machine) as [Hneg _].
  destruct (configure_ctx_flag_spec sample_build 4 plain_machine) as [_ Hok].
  assert (0 <= 4 < RCE_LAST sample_build) as Hrange by (simpl; lia).
  destruct (Hok Hrange) as (Hres & Hflags & _ & Htwice & _).
  split; [apply Hhigh; right; simpl; lia|].
  split; [apply Hneg; left; lia|].
  split; [exact Hres|]. split; [exact Hflags|exact Htwice].
Defined.

(** [configure_ctx(int, ssize_t)] on [plain_machine]: each of the three
    rejections, and an accepted pair. *)
Lemma configure_ctx_value_spec_witness :
  let set := after (configure_ctx_value sample_build 2 1500 plain_machine) in
  configure_ctx_value sample_build 4 1500 plain_machine
  = (plain_machine, Ret RTP_INVALID_VALUE)
  ∧ configure_ctx_value sample_build (-1) 1500 plain_machine
    = (plain_machine, Ret RTP_INVALID_VALUE)
  ∧ configure_ctx_value sample_build 2 (-5) plain_machine
    = (plain_machine, Ret RTP_INVALID_VALUE)
  ∧ result (configure_ctx_value sample_build 2 1500 plain_machine) = Ret RTP_OK
  ∧ ctx_values (ctx_config_ (self set)) !! 2%nat = Some 1500.
Proof.
  intros set.
  destruct (configure_ctx_value_spec sample_build 4 1500 plain_machine) as [Hhigh _].
  destruct (configure_ctx_value_spec sample_build (-1) 1500 plain_machine) as [Hneg _].
  destruct (configure_ctx_value_spec sample_build 2 (-5) plain_machine) as [Hval _].
  destruct (configure_ctx_value_spec sample_build 2 1500 plain_machine) as [_ Hok].
  assert (0 <= 2 < RCC_LAST sample_build) as Hrange by (simpl; lia).
  assert (0 <= 1500) as Hvalue by lia.
  destruct (Hok Hrange Hvalue eq_refl) as (Hres & Hset & _).
  split; [apply Hhigh; right; left; simpl; lia|].
  split; [apply Hneg; left; lia|].
  split; [apply Hval; right; right; lia|].
  split; [exact Hres|exact Hset].
Defined.

(** Hook installation before and after the plain bootstrap of
    [plain_machine]. *)
Lemma hook_installation_witness :
  let booted := after (init sample_build answers_ok plain_machine) in
  install_receive_hook 0 None plain_machine = (plain_machine, Ret RTP_INVALID_VALUE)
  ∧ install_deallocation_hook None booted = (booted, Ret RTP_INVALID_VALUE)
  ∧ result (install_receive_hook 0 (Some 77) booted) = Ret RTP_OK
  ∧ result (install_deallocation_hook (Some 78) booted) = Ret RTP_OK.
Proof.
  intros booted.
  destruct (hook_installation plain_machine) as (Hnull & _).
  destruct (hook_installation booted) as (_ & Hnull' & Hrecv & Hdealloc).
  assert (sender_ (self booted) = obj 2) as Hs by (vm_compute; reflexivity).
  assert (receiver_ (self booted) = obj 3) as Hr by (vm_compute; reflexivity).
  assert (live booted = [3; 2; 1; 0]) as Hl by (vm_compute; reflexivity).
  assert (2 ∈ live booted) as H2
    by (rewrite Hl; apply list_elem_of_further, list_elem_of_here).
  assert (3 ∈ live booted) as H3 by (rewrite Hl; apply list_elem_of_here).
  split; [exact (Hnull 0)|]. split; [exact Hnull'|].
  rewrite (Hrecv 0 77 3 Hr H3), (Hdealloc 78 2 Hs H2). split; reflexivity.
Defined.

(** The constructor with an empty local address, connected. *)
Lemma empty_local_address_is_wildcard_witness :
  let m := boot (media_stream_ctor_local sample_build 81985529216486895
                   "203.0.113.5" "" 5004 5004 96 0) [0] 1 in
  m = plain_machine
  ∧ socket_bind_any 5004 RTP_OK
    ∈ log (after (init_connection sample_build answers_ok m)).
Proof.
  intros m.
  destruct (empty_local_address_is_wildcard sample_build 81985529216486895
              "203.0.113.5" 5004 5004 96 0) as [Hsame Hconn].
  destruct (Hconn answers_ok [0] 1) as (_ & _ & Hin).
  split; [unfold m, plain_machine; by rewrite Hsame|exact (Hin eq_refl)].
Defined.

(** * Where the code departs from the specification *)

(** C2, counterexample: the destructor of an orchestrator that was never
    bootstrapped, of one whose bootstrap stopped at a failed [::bind], and
    of one whose secure bootstrap stopped at a failed handshake (with the
    RTP context already allocated) does not run to its end: its first
    statement dereferences the sender that was never constructed. *)
Lemma teardown_without_bootstrap_faults :
  ¬ returns destructor plain_machine
  ∧ result (init sample_build answers_bind_fails bound_machine)
    = Ret RTP_GENERIC_ERROR
  ∧ ¬ returns destructor (after (init sample_build answers_bind_fails bound_machine))
  ∧ result (init_zrtp sample_build (obj 0) answers_handshake_fails plain_machine)
    = Ret (RTP_ERROR 7)
  ∧ ¬ returns destructor
        (after (init_zrtp sample_build (obj 0) answers_handshake_fails plain_machine)).
Proof.
  unfold returns. repeat split; try (vm_compute; reflexivity).
  all: intros [a Ha]; vm_compute in Ha; discriminate Ha.
Qed.

(** C3, counterexample: after a plain bootstrap that failed at [::bind],
    neither [push_frame] nor [pull_frame] returns anything, an error or an
    empty frame included: both dereference the absent object. *)
Lemma frame_io_after_failed_bootstrap_faults :
  let failed := after (init sample_build answers_bind_fails bound_machine) in
  result (init sample_build answers_bind_fails bound_machine) = Ret RTP_GENERIC_ERROR
  ∧ sender_ (self failed) = indeterminate
  ∧ receiver_ (self failed) = indeterminate
  ∧ ¬ returns (push_frame 4096 100 0 RTP_OK) failed
  ∧ ¬ returns (push_frame_unique 4096 100 0 RTP_OK) failed
  ∧ ¬ returns (pull_frame nullptr) failed.
Proof.
  unfold returns. repeat split; try (vm_compute; reflexivity).
  all: intros [a Ha]; vm_compute in Ha; discriminate Ha.
Qed.

(** C8, counterexample: on an orchestrator that has not been bootstrapped,
    installing a non-null hook does not return [RTP_OK] and registers
    nothing: the receiver (sender) it is handed to does not exist. *)
Lemma hook_installation_before_bootstrap_faults :
  result (install_receive_hook 0 (Some 77) plain_machine) ≠ Ret RTP_OK
  ∧ result (install_deallocation_hook (Some 78) plain_machine) ≠ Ret RTP_OK
  ∧ log (after (install_receive_hook 0 (Some 77) plain_machine)) = []
  ∧ log (after (install_deallocation_hook (Some 78) plain_machine)) = [].
Proof.
  repeat split; try (vm_compute; reflexivity).
  all: intros H; vm_compute in H; discriminate H.
Qed.

(** The same runs on an orchestrator whose three pointers are null rather
    than indeterminate end the same way. *)
Lemma null_members_fault_too :
  let t := set_sender_ nullptr (set_receiver_ nullptr (set_rtp_ nullptr
             (self plain_machine))) in
  let m := boot t [0] 1 in
  result (destructor m) = Fault
  ∧ result (push_frame 4096 100 0 RTP_OK m) = Fault
  ∧ result (pull_frame nullptr m) = Fault
  ∧ result (install_receive_hook 0 (Some 77) m) = Fault
  ∧ result (install_deallocation_hook (Some 78) m) = Fault.
Proof. repeat split. Qed.

(** * The platform switches *)

Lemma platform_calls_filtered (B : build) (c : collaborators) :
  filter (λ e, platform_event e = false) (nonblocking_setup B c) = []
  ∧ filter (λ e, platform_event e = false) (bind_failure_report B) = [].
Proof.
  unfold nonblocking_setup, bind_failure_report.
  by destruct (win32 B), (linux B).
Qed.

(** X7: the two platform switches do not influence connection
    establishment: for two builds that differ in anything, the platform
    included, [init_connection] returns the same value and leaves the same
    members and heap, and the two logs agree once the two platform calls
    are left out.  [ioctlsocket] is called exactly on a build with
    [_WIN32], after a successful socket creation; [win_get_last_error]
    exactly on a build without [__linux__], after a failed [::bind].  The
    build enters through these two switches only. *)
Theorem platform_switch_is_inert (B B' : build) (c : collaborators) (m : machine) :
  let run := init_connection B c m in
  let run' := init_connection B' c m in
  let evs := drop (length (log m)) (log (after run)) in
  result run = result run'
  ∧ self (after run) = self (after run')
  ∧ live (after run) = live (after run')
  ∧ fresh (after run) = fresh (after run')
  ∧ filter (λ e, platform_event e = false) (log (after run))
    = filter (λ e, platform_event e = false) (log (after run'))
  ∧ (ioctlsocket_nonblock (raw_socket c) ∈ evs
     ↔ win32 B = true ∧ socket_init_result c = RTP_OK)
  ∧ (win_get_last_error ∈ evs
     ↔ linux B = false ∧ socket_init_result c = RTP_OK
       ∧ laddr_ (self m) ≠ "" ∧ sys_bind_result c = -1)
  ∧ (win32 B = win32 B' → linux B = linux B' → run = run').
Proof.
  intros run run' evs. subst run run' evs.
  destruct (nonblocking_setup_only_ioctl B c) as (_ & Hin & Hwin).
  destruct (platform_calls_filtered B c) as (Hf & Hg).
  destruct (platform_calls_filtered B' c) as (Hf' & Hg').
  pose proof (bind_failure_report_only B) as Hrep.
  assert (linux B = false → win_get_last_error ∈ bind_failure_report B) as Hlin.
  { unfold bind_failure_report. intros ->. apply list_elem_of_here. }
  assert (win32 B = win32 B' → linux B = linux B' →
          init_connection B c m = init_connection B' c m) as Hsame.
  { intros Hw Hl. unfold init_connection. by rewrite Hw, Hl. }
  split; [|split; [|split; [|split; [|split; [|split; [|split; [|exact Hsame]]]]]]].
  all: clear Hsame.
  all: destruct (decide (socket_init_result c = RTP_OK)) as [Hs|Hs];
    [destruct (decide (laddr_ (self m) ≠ "")) as [Hl|Hl];
       [rewrite !init_connection_local by done
       |apply dec_stable in Hl; rewrite !init_connection_wildcard by done];
     case_decide as Hb
    |rewrite !init_connection_socket_failure by done];
    simpl; rewrite ?drop_app_length; try done.
  all: rewrite ?filter_app, ?filter_cons, ?filter_app, ?filter_cons,
         ?Hf, ?Hf', ?Hg, ?Hg'; simpl; try done.
  all: split; [intros He|intros Hyp].
  all: try (in_log He; try discriminate He;
            first [ apply Hin in He as [? ?] | apply Hrep in He as [? ?] ];
            first [ congruence | by repeat split ]).
  all: try (destruct Hyp as [Hw ?]; first [ congruence |
            apply list_elem_of_further, elem_of_app; left; by auto ]).
  all: try (destruct Hyp as (Hx & ? & ? & ?); first [ congruence | done |
            apply list_elem_of_further, elem_of_app; right;
            apply list_elem_of_further; by auto ]).
Qed.

(** * Concrete runs of the further properties *)

(** Connection establishment of [bound_machine] with a failing [::bind],
    on Windows and on Linux. *)
Lemma platform_switch_is_inert_witness :
  let run := init_connection windows_build answers_bind_fails bound_machine in
  let run' := init_connection sample_build answers_bind_fails bound_machine in
  result run = Ret RTP_BIND_ERROR
  ∧ result run' = Ret RTP_BIND_ERROR
  ∧ self (after run) = self (after run')
  ∧ ioctlsocket_nonblock 3 ∈ log (after run)
  ∧ win_get_last_error ∈ log (after run)
  ∧ log (after run')
    = filter (λ e, platform_event e = false) (log (after run)).
Proof.
  intros run run'.
  destruct (platform_switch_is_inert windows_build sample_build answers_bind_fails
              bound_machine) as (Hres & Hself & _ & _ & Hlog & Hioctl & Hreport & _).
  assert (result run' = Ret RTP_BIND_ERROR) as Hr by (vm_compute; reflexivity).
  split; [unfold run; rewrite Hres; exact Hr|]. split; [exact Hr|].
  split; [exact Hself|].
  split; [apply Hioctl; split; reflexivity|].
  split; [apply Hreport; repeat split; discriminate|].
  unfold run. rewrite Hlog. vm_compute. reflexivity.
Defined.

(** A media configuration survives a bootstrap, frame I/O and a
    configuration call. *)
Lemma media_config_round_trip_witness :
  result (get_media_config
            (after (perform_all sample_build
                      [call_init answers_ok; call_push_frame 4096 100 0 RTP_OK;
                       call_configure_ctx 4]
                      (after (set_media_config (obj 9) plain_machine)))))
  = Ret (obj 9).
Proof.
  apply (media_config_round_trip sample_build (obj 9)
           [call_init answers_ok; call_push_frame 4096 100 0 RTP_OK;
            call_configure_ctx 4] plain_machine).
  repeat constructor.
Defined.

(** The flags given at construction and by [configure_ctx] after a
    bootstrap and further configuration. *)
Lemma flags_only_grow_witness :
  let m := boot (media_stream_ctor sample_build 7 "203.0.113.5" 5004 5004 96 5) [0] 1 in
  let ks := [call_configure_ctx 8; call_init answers_ok; call_configure_ctx 2] in
  Z.testbit (flags (ctx_config_ (self (after (perform_all sample_build ks m))))) 2 = true
  ∧ int_range (flags (ctx_config_ (self (after (perform_all sample_build ks m))))).
Proof.
  intros m ks.
  destruct (flags_only_grow sample_build ks m) as (Hbits & _ & Hrange).
  split.
  - apply Hbits. reflexivity.
  - apply Hrange; [simpl; lia|]. unfold int_range. simpl. lia.
Defined.

(** The table of [plain_machine] after accepted and rejected writes. *)
Lemma ctx_values_stay_valid_witness :
  let ks := [call_configure_ctx_value 2 1500; call_configure_ctx_value 9 1;
             call_configure_ctx_value 1 (-3); call_init answers_ok] in
  let later := ctx_values (ctx_config_ (self (after (perform_all sample_build ks
                                                       plain_machine)))) in
  length later = 4%nat ∧ Forall (λ v, 0 <= v) later.
Proof.
  intros ks later.
  destruct (ctx_values_stay_valid sample_build ks plain_machine) as (_ & _ & Hc).
  apply (Hc 81985529216486895 "203.0.113.5" "" 5004 5004 96 0 [0] 1).
  left. reflexivity.
Defined.

(** Two keys written in both orders, and one key written twice. *)
Lemma configuration_setters_commute_witness :
  after (configure_ctx_value sample_build 1 30
           (after (configure_ctx_value sample_build 2 1500 plain_machine)))
  = after (configure_ctx_value sample_build 2 1500
             (after (configure_ctx_value sample_build 1 30 plain_machine)))
  ∧ after (configure_ctx_value sample_build 2 40
             (after (configure_ctx_value sample_build 2 1500 plain_machine)))
    = after (configure_ctx_value sample_build 2 40 plain_machine).
Proof.
  destruct (configuration_setters_commute sample_build plain_machine 0 0 2 1 1500 30)
    as (_ & _ & Hne & _).
  destruct (configuration_setters_commute sample_build plain_machine 0 0 2 2 1500 40)
    as (_ & _ & _ & Hsame).
  split; [apply Hne; lia|apply Hsame; lia].
Defined.

(** The destination after a successful and after a failed connection
    establishment of [bound_machine]. *)
Lemma connection_outcomes_witness :
  addr_out_ (self (after (init_connection sample_build answers_ok bound_machine)))
  = Some (Sockaddr "203.0.113.5" 5004)
  ∧ addr_out_ (self (after (init_connection sample_build answers_bind_fails
                              bound_machine)))
    = None
  ∧ result (init_connection sample_build answers_bind_fails bound_machine)
    = Ret RTP_BIND_ERROR.
Proof.
  destruct (connection_outcomes sample_build answers_ok bound_machine)
    as (evs & r & E & _ & _ & Hok & _).
  destruct (connection_outcomes sample_build answers_bind_fails bound_machine)
    as (evs' & r' & E' & _ & _ & _ & Hfail & Hlocal & _).
  assert (r = RTP_OK) as Hr.
  { apply (f_equal snd) in E. vm_compute in E. by injection E as <-. }
  assert (r' = RTP_BIND_ERROR) as Hr'.
  { apply (f_equal snd) in E'. vm_compute in E'. by injection E' as <-. }
  specialize (Hok Hr). vm_compute in Hok.
  assert (r' ≠ RTP_OK) as Hne by (rewrite Hr'; discriminate).
  specialize (Hfail Hne). vm_compute in Hfail.
  split; [vm_compute; exact Hok|]. split; [vm_compute; exact Hfail|].
  vm_compute. reflexivity.
Defined.

(** The plain bootstrap of [plain_machine]. *)
Lemma plain_bootstrap_wiring_witness :
  let m1 := after (init sample_build answers_ok plain_machine) in
  ∃ s r, sender_ (self m1) = obj s ∧ receiver_ (self m1) = obj r ∧ s ≠ r
         ∧ ctx_config_ (self m1) = ctx_config_ (self plain_machine).
Proof.
  intros m1.
  assert (init sample_build answers_ok plain_machine = (m1, Ret RTP_OK)) as Hinit
    by (vm_compute; reflexivity).
  destruct (plain_bootstrap_wiring sample_build answers_ok plain_machine m1 Hinit)
    as (evs & s & r & _ & _ & Hs & Hr & Hne & _ & _ & _ & _ & Hconf & _).
  exists s, r. repeat split; assumption.
Defined.

(** The handshake of a failing and the steps of a successful secure
    bootstrap of [plain_machine]. *)
Lemma secure_bootstrap_steps_witness :
  socket_set_sockaddr (Sockaddr "203.0.113.5" 5004)
  ∈ log (after (init_zrtp sample_build (obj 0) answers_handshake_fails plain_machine))
  ∧ ∃ t k s r,
      srtp_ (self (after (init_zrtp sample_build (obj 0) answers_ok plain_machine)))
      = obj k
      ∧ NoDup [t; k; s; r].
Proof.
  destruct (secure_bootstrap_steps sample_build (obj 0) answers_handshake_fails
              plain_machine) as (evs & Hlog & Hshake & _).
  destruct (secure_bootstrap_steps sample_build (obj 0) answers_ok plain_machine)
    as (evs' & Hlog' & _ & Hok).
  split.
  - vm_compute in Hlog. subst evs.
    destruct (Hshake 0 2864434397 3 (Some (Sockaddr "203.0.113.5" 5004))
                (RTP_ERROR 7)) as (_ & _ & _ & _ & _ & Hdest & _).
    + do 4 apply list_elem_of_further. apply list_elem_of_here.
    + vm_compute in Hdest. vm_compute. exact Hdest.
  - assert (result (init_zrtp sample_build (obj 0) answers_ok plain_machine)
            = Ret RTP_OK) as Hres by (vm_compute; reflexivity).
    destruct (Hok Hres)
      as (conn & z & t & k & s & r & _ & _ & _ & _ & Hk & _ & _ & Hnd).
    exists t, k, s, r. split; assumption.
Defined.

(** Secure bootstraps of [plain_machine] that end at the SRTP
    initialisation and at the two allocations. *)
Lemma secure_bootstrap_failures_witness :
  let no_rtp := init_zrtp sample_build (obj 0) answers_no_rtp plain_machine in
  let no_srtp := init_zrtp sample_build (obj 0) answers_no_srtp plain_machine in
  result (init_zrtp sample_build (obj 0) answers_srtp_fails plain_machine)
  = Ret (RTP_ERROR 9)
  ∧ srtp_ (self (after (init_zrtp sample_build (obj 0) answers_srtp_fails
                          plain_machine))) = obj 2
  ∧ result no_rtp = Bad_alloc
  ∧ rtp_ (self (after no_rtp)) = indeterminate
  ∧ result no_srtp = Bad_alloc
  ∧ srtp_ (self (after no_srtp)) = nullptr
  ∧ valid (after no_srtp) (rtp_ (self (after no_srtp))).
Proof.
  intros no_rtp no_srtp.
  destruct (secure_bootstrap_failures sample_build (obj 0) answers_srtp_fails
              plain_machine) as (evs1 & Hlog1 & Hsrtp & _).
  destruct (secure_bootstrap_failures sample_build (obj 0) answers_no_rtp
              plain_machine) as (evs2 & _ & _ & _ & _ & Hrtp & _).
  destruct (secure_bootstrap_failures sample_build (obj 0) answers_no_srtp
              plain_machine) as (evs3 & Hlog3 & _ & _ & _ & _ & Hnosrtp).
  vm_compute in Hlog1, Hlog3. subst evs1 evs3.
  destruct (Hsrtp 2 (obj 1) (obj 0) (RTP_ERROR 9)) as (H1 & _ & _ & H2 & _).
  { do 6 apply list_elem_of_further. apply list_elem_of_here. }
  { discriminate. }
  assert (result (init_connection sample_build answers_no_rtp plain_machine)
          = Ret RTP_OK) as Hconn by (vm_compute; reflexivity).
  assert (alloc_rtp answers_no_rtp = false) as Hno by reflexivity.
  pose proof (Hrtp Hconn Hno) as H3.
  destruct (Hnosrtp 0 2864434397 3 (Some (Sockaddr "203.0.113.5" 5004)))
    as (H4 & H5 & H6 & _).
  { do 4 apply list_elem_of_further. apply list_elem_of_here. }
  { reflexivity. }
  split; [exact H1|]. split; [exact H2|].
  split; [unfold no_rtp; rewrite H3; reflexivity|].
  split; [unfold no_rtp; rewrite H3; vm_compute; reflexivity|].
  split; [exact H4|]. split; [exact H5|exact H6].
Defined.

(** A flag and a value configured on [plain_machine] before its plain
    bootstrap. *)
Lemma configuration_reaches_sender_and_receiver_witness :
  let m1 := after (init sample_build answers_ok
                     (after (configure_ctx_value sample_build 2 1500
                               (after (configure_ctx sample_build 4 plain_machine))))) in
  ∃ s conf fmt rtp,
    new_sender (obj s) conf fmt rtp ∈ log m1
    ∧ flags conf = Z.lor 0 4
    ∧ ctx_values conf !! 2%nat = Some 1500.
Proof.
  intros m1.
  assert (init sample_build answers_ok
            (after (configure_ctx_value sample_build 2 1500
                      (after (configure_ctx sample_build 4 plain_machine))))
          = (m1, Ret RTP_OK)) as Hinit by (vm_compute; reflexivity).
  destruct (configuration_reaches_sender_and_receiver sample_build 4 2 1500
              answers_ok plain_machine m1)
    as (s & r & conf & fmt & rtp & Hs & _ & _ & _ & Hflags & Hvalue & _).
  - simpl. lia.
  - simpl. lia.
  - lia.
  - reflexivity.
  - exact Hinit.
  - exists s, conf, fmt, rtp. repeat split; assumption.
Defined.

(** [plain_machine] is bootstrapped twice and then torn down. *)
Lemma repeated_bootstrap_leaks_witness :
  let m1 := after (init sample_build answers_ok plain_machine) in
  let m2 := after (init sample_build answers_ok m1) in
  result (destructor m2) = Ret tt
  ∧ live (after (destructor m2)) = [3; 2; 1; 0].
Proof.
  intros m1 m2.
  assert (init sample_build answers_ok plain_machine = (m1, Ret RTP_OK)) as H1
    by (vm_compute; reflexivity).
  assert (init sample_build answers_ok m1 = (m2, Ret RTP_OK)) as H2
    by (vm_compute; reflexivity).
  destruct (repeated_bootstrap_leaks sample_build answers_ok answers_ok
              plain_machine m1 m2 plain_machine_heap_ok eq_refl H1 H2)
    as (s & r & s' & r' & _ & _ & _ & _ & _ & Hres & Hlive & _).
  split; [exact Hres|]. rewrite Hlive. vm_compute. reflexivity.
Defined.

(** The secure bootstrap of [plain_machine] with a null ZRTP pointer. *)
Lemma secure_bootstrap_needs_zrtp_witness :
  let run := init_zrtp sample_build nullptr answers_ok plain_machine in
  result run = Fault ∧ rtp_ (self (after run)) = obj 1 ∧ live (after run) = [1; 0].
Proof.
  intros run.
  destruct (secure_bootstrap_needs_zrtp sample_build nullptr answers_ok plain_machine)
    as (evs & _ & _ & _ & _ & Hiff & Hstate).
  { intros a. discriminate. }
  assert (result (init_connection sample_build answers_ok plain_machine)
          = Ret RTP_OK) as Hconn by (vm_compute; reflexivity).
  assert (result run = Fault) as Hfault.
  { apply Hiff. split; [exact Hconn|reflexivity]. }
  destruct (Hstate Hfault) as (Hrtp & Hlive & _).
  split; [exact Hfault|]. split; [exact Hrtp|exact Hlive].
Defined.

(** The caller's object at address 0, registered as media configuration
    of [plain_machine], outlives frame I/O and the teardown that follows a
    plain bootstrap. *)
Lemma only_the_destructor_releases_witness :
  let m := after (init sample_build answers_ok
                    (after (set_media_config (obj 0) plain_machine))) in
  media_config_ (self m) = obj 0
  ∧ 0 ∈ live (after (perform_all sample_build
                       [call_push_frame 4096 100 0 RTP_OK; call_pull_frame nullptr] m))
  ∧ 0 ∈ live (after (destructor m)).
Proof.
  intros m.
  assert (live m = [3; 2; 1; 0]) as Hlive by (vm_compute; reflexivity).
  assert (0 ∈ live m) as H0
    by (rewrite Hlive; do 3 apply list_elem_of_further; apply list_elem_of_here).
  destruct (only_the_destructor_releases sample_build
              [call_push_frame 4096 100 0 RTP_OK; call_pull_frame nullptr] m 0 H0)
    as [Hcalls Hdtor].
  destruct Hdtor as [Hafter _].
  - intros H. vm_compute in H. discriminate H.
  - intros H. vm_compute in H. discriminate H.
  - intros H. vm_compute in H. discriminate H.
  - intros H. vm_compute in H. discriminate H.
  - split; [vm_compute; reflexivity|]. split; [exact Hcalls|exact Hafter].
Defined.
